(** * PaintEmailAgentMCP_JSON: the plan-execute loop and the paint tool server

    A shallow embedding of [autonomous_paint_agent.py] (the loop that turns
    planner output into tool invocations) and of [paint_tools.py] (the
    [PaintTools] class behind the MCP tool server), with the properties the
    specification states about them.

    Conventions.
    - A Python [str] is a Rocq [string]; a character is its code below 256
      (ASCII and Latin-1).  The one literal of the sources outside that range,
      the arrow of the breakdown line, is kept as its UTF-8 bytes.
    - External collaborators are parameters of the sections that use them:
      the planner (the Gemini client), the MCP session ([call_tool]), the JSON
      decoder of the Python library, the GUI backend (pywinauto, win32api) and
      the floating point library ([math.exp], float addition, formatting).
    - Exceptions are values of [exn]; a [try]/[except] of the source is a
      [match] on the result. *)

From Stdlib Require Import List String Ascii Bool Arith ZArith Lia DecimalString.
Import ListNotations.
Local Open Scope string_scope.
Local Open Scope nat_scope.
Local Set Warnings "-register-all".

(** ** Python string operations used by the two files *)

Module PyStr.

(** [str.isspace] on the code points below 256: TAB..CR, FS..US, space,
    NEL (0x85) and NBSP (0xA0). *)
Definition is_space (c : ascii) : bool :=
  let n := nat_of_ascii c in
  ((9 <=? n) && (n <=? 13)) || ((28 <=? n) && (n <=? 32))
  || (n =? 133) || (n =? 160).

Fixpoint lstrip (s : string) : string :=
  match s with
  | EmptyString => EmptyString
  | String c r => if is_space c then lstrip r else s
  end.

Fixpoint rstrip (s : string) : string :=
  match s with
  | EmptyString => EmptyString
  | String c r =>
      match rstrip r with
      | EmptyString => if is_space c then EmptyString else String c EmptyString
      | r' => String c r'
      end
  end.

(** [s.strip()] *)
Definition strip (s : string) : string := rstrip (lstrip s).

(** [s.split(sep)] for a one-character separator: never the empty list. *)
Fixpoint split (sep : ascii) (s : string) : list string :=
  match s with
  | EmptyString => [EmptyString]
  | String c r =>
      if Ascii.eqb c sep then EmptyString :: split sep r
      else match split sep r with
           | [] => [String c EmptyString]
           | h :: t => String c h :: t
           end
  end.

(** [s.split(sep, 1)]: [Some (before, after)] at the first separator,
    [None] when there is none (the one-element list of Python). *)
Fixpoint split_once (sep : ascii) (s : string) : option (string * string) :=
  match s with
  | EmptyString => None
  | String c r =>
      if Ascii.eqb c sep then Some (EmptyString, r)
      else match split_once sep r with
           | Some (a, b) => Some (String c a, b)
           | None => None
           end
  end.

(** [s.startswith(p)] *)
Definition startswith (p s : string) : bool := String.prefix p s.

(** [sep.join(l)] *)
Definition join (sep : string) (l : list string) : string := String.concat sep l.

(** [str(n)] for a natural number and for an integer. *)
Definition str_of_nat (n : nat) : string := NilEmpty.string_of_uint (Nat.to_uint n).

Definition str_of_Z (z : Z) : string :=
  match z with
  | Z0 => "0"
  | Zpos p => str_of_nat (Pos.to_nat p)
  | Zneg p => "-" ++ str_of_nat (Pos.to_nat p)
  end.

Definition nl : string := String (ascii_of_nat 10) EmptyString.
Definition dquote : ascii := ascii_of_nat 34.
Definition dq : string := String dquote EmptyString.

End PyStr.

(** ** JSON values and the decoder *)

Module Json.
Import PyStr.

(** What [json.loads] returns: [None], [bool], [int], [float] (kept as its
    lexeme), [str], [list], [dict] (insertion ordered). *)
Inductive json : Type :=
| JNull
| JBool (b : bool)
| JInt (z : Z)
| JFloat (lexeme : string)
| JStr (s : string)
| JList (l : list json)
| JDict (kv : list (string * json)).

(** [d[k] = v] on an insertion-ordered dict: a repeated key keeps its place
    and takes the new value. *)
Fixpoint dict_set (k : string) (v : json) (kv : list (string * json))
  : list (string * json) :=
  match kv with
  | [] => [(k, v)]
  | (k', v') :: r =>
      if String.eqb k k' then (k, v) :: r else (k', v') :: dict_set k v r
  end.

Fixpoint dict_get (k : string) (kv : list (string * json)) : option json :=
  match kv with
  | [] => None
  | (k', v) :: r => if String.eqb k k' then Some v else dict_get k r
  end.

(** *** A decoder for the JSON grammar, after [json.decoder]

    The loop takes its decoder as a parameter, and its theorems hold for any
    decoder; this one runs the loop on the concrete responses of the
    scenarios. *)

Definition is_ws (c : ascii) : bool :=
  let n := nat_of_ascii c in (n =? 32) || (n =? 9) || (n =? 10) || (n =? 13).

Fixpoint skip_ws (s : list ascii) : list ascii :=
  match s with
  | c :: r => if is_ws c then skip_ws r else s
  | [] => []
  end.

Definition is_digit (c : ascii) : bool :=
  let n := nat_of_ascii c in (48 <=? n) && (n <=? 57).

Fixpoint span_digits (s : list ascii) : list ascii * list ascii :=
  match s with
  | c :: r =>
      if is_digit c then let (ds, r') := span_digits r in (c :: ds, r')
      else ([], s)
  | [] => ([], [])
  end.

Definition digits_value (ds : list ascii) : Z :=
  fold_left (fun acc c => (10 * acc + Z.of_nat (nat_of_ascii c - 48))%Z) ds 0%Z.

Definition hex_value (c : ascii) : option nat :=
  let n := nat_of_ascii c in
  if (48 <=? n) && (n <=? 57) then Some (n - 48)
  else if (65 <=? n) && (n <=? 70) then Some (n - 55)
  else if (97 <=? n) && (n <=? 102) then Some (n - 87)
  else None.

(** The one-character escapes of a JSON string. *)
Definition unescape (c : ascii) : option ascii :=
  let n := nat_of_ascii c in
  if n =? 34 then Some c
  else if n =? 92 then Some c
  else if n =? 47 then Some c
  else if n =? 98 then Some (ascii_of_nat 8)
  else if n =? 102 then Some (ascii_of_nat 12)
  else if n =? 110 then Some (ascii_of_nat 10)
  else if n =? 114 then Some (ascii_of_nat 13)
  else if n =? 116 then Some (ascii_of_nat 9)
  else None.

(** The body of a string after its opening quote (strict mode: a control
    character ends the decoding with an error).  A [\uXXXX] escape is decoded
    when its value is below 256; larger ones are outside the text this
    development models and are refused. *)
Fixpoint scan_string (s : list ascii) : option (string * list ascii) :=
  match s with
  | [] => None
  | c :: r =>
      if Ascii.eqb c dquote then Some (EmptyString, r)
      else if Ascii.eqb c "\"%char then
        match r with
        | [] => None
        | e :: r1 =>
            match unescape e with
            | Some c' =>
                match scan_string r1 with
                | Some (t, r2) => Some (String c' t, r2)
                | None => None
                end
            | None =>
                if Ascii.eqb e "u"%char then
                  match r1 with
                  | h1 :: h2 :: h3 :: h4 :: r2 =>
                      match hex_value h1, hex_value h2, hex_value h3, hex_value h4 with
                      | Some a, Some b, Some c1, Some d =>
                          let v := ((a * 16 + b) * 16 + c1) * 16 + d in
                          if v <? 256 then
                            match scan_string r2 with
                            | Some (t, r3) => Some (String (ascii_of_nat v) t, r3)
                            | None => None
                            end
                          else None
                      | _, _, _, _ => None
                      end
                  | _ => None
                  end
                else None
            end
        end
      else if nat_of_ascii c <? 32 then None
      else match scan_string r with
           | Some (t, r1) => Some (String c t, r1)
           | None => None
           end
  end.

(** A number, after the decoder's pattern: an optional minus sign, then a
    lone zero or a non-zero digit with more digits, then an optional fraction
    (a dot and at least one digit), then an optional exponent (e or E, an
    optional sign, at least one digit).  It is an [int] when it has neither
    a fraction nor an exponent. *)
Definition scan_number (s : list ascii) : option (json * list ascii) :=
  let '(neg, r) := match s with
                   | c :: r' => if Ascii.eqb c "-"%char then (true, r') else (false, s)
                   | [] => (false, s)
                   end in
  let int_part :=
    match r with
    | c :: r' =>
        if Ascii.eqb c "0"%char then Some ([c], r')
        else if is_digit c then Some (span_digits r)
        else None
    | [] => None
    end in
  match int_part with
  | None => None
  | Some (ds, r1) =>
      let '(frac, r2) :=
        match r1 with
        | c :: r' =>
            if Ascii.eqb c "."%char then
              match span_digits r' with
              | ([], _) => ([], r1)
              | (fs, r'') => (c :: fs, r'')
              end
            else ([], r1)
        | [] => ([], r1)
        end in
      let '(ex, r3) :=
        match r2 with
        | c :: r' =>
            if Ascii.eqb c "e"%char || Ascii.eqb c "E"%char then
              let '(sg, r'') :=
                match r' with
                | c' :: t =>
                    if Ascii.eqb c' "-"%char || Ascii.eqb c' "+"%char
                    then ([c'], t) else ([], r')
                | [] => ([], r')
                end in
              match span_digits r'' with
              | ([], _) => ([], r2)
              | (es, t) => (c :: (sg ++ es)%list, t)
              end
            else ([], r2)
        | [] => ([], r2)
        end in
      match frac, ex with
      | [], [] =>
          Some (JInt (if neg then - digits_value ds else digits_value ds)%Z, r3)
      | _, _ =>
          Some (JFloat (string_of_list_ascii
                          ((if neg then ["-"%char] else []) ++ ds ++ frac ++ ex)%list), r3)
      end
  end.

(** [s] starts with the literal [lit]: the rest of [s]. *)
Fixpoint eat (lit s : list ascii) : option (list ascii) :=
  match lit, s with
  | [], _ => Some s
  | a :: lit', b :: s' => if Ascii.eqb a b then eat lit' s' else None
  | _ :: _, [] => None
  end.

Definition lit (s : string) : list ascii := list_ascii_of_string s.

(** [scan_once]: one value at the head of the input.  [parse_members] reads
    the pairs of an object from its first key on, [parse_elements] the items
    of an array from its first item on.  The fuel bounds the nesting; every
    recursive call follows at least one consumed character. *)
Fixpoint parse_value (fuel : nat) (s : list ascii) {struct fuel}
  : option (json * list ascii) :=
  match fuel with
  | 0 => None
  | S fuel' =>
      match s with
      | [] => None
      | c :: r =>
          if Ascii.eqb c dquote then
            match scan_string r with
            | Some (t, r1) => Some (JStr t, r1)
            | None => None
            end
          else if Ascii.eqb c "{"%char then
            match skip_ws r with
            | c1 :: r1 =>
                if Ascii.eqb c1 "}"%char then Some (JDict [], r1)
                else parse_members fuel' (c1 :: r1) []
            | [] => None
            end
          else if Ascii.eqb c "["%char then
            match skip_ws r with
            | c1 :: r1 =>
                if Ascii.eqb c1 "]"%char then Some (JList [], r1)
                else parse_elements fuel' (c1 :: r1) []
            | [] => None
            end
          else
            match eat (lit "null") s, eat (lit "true") s, eat (lit "false") s with
            | Some r1, _, _ => Some (JNull, r1)
            | _, Some r1, _ => Some (JBool true, r1)
            | _, _, Some r1 => Some (JBool false, r1)
            | None, None, None =>
                match scan_number s with
                | Some res => Some res
                | None =>
                    match eat (lit "NaN") s, eat (lit "Infinity") s,
                          eat (lit "-Infinity") s with
                    | Some r1, _, _ => Some (JFloat "NaN", r1)
                    | _, Some r1, _ => Some (JFloat "Infinity", r1)
                    | _, _, Some r1 => Some (JFloat "-Infinity", r1)
                    | None, None, None => None
                    end
                end
            end
      end
  end
with parse_members (fuel : nat) (s : list ascii) (acc : list (string * json))
       {struct fuel} : option (json * list ascii) :=
  match fuel with
  | 0 => None
  | S fuel' =>
      match s with
      | c :: r =>
          if Ascii.eqb c dquote then
            match scan_string r with
            | Some (k, r1) =>
                match skip_ws r1 with
                | c2 :: r2 =>
                    if Ascii.eqb c2 ":"%char then
                      match parse_value fuel' (skip_ws r2) with
                      | Some (v, r3) =>
                          let acc' := dict_set k v acc in
                          match skip_ws r3 with
                          | c4 :: r4 =>
                              if Ascii.eqb c4 "}"%char then Some (JDict acc', r4)
                              else if Ascii.eqb c4 ","%char
                              then parse_members fuel' (skip_ws r4) acc'
                              else None
                          | [] => None
                          end
                      | None => None
                      end
                    else None
                | [] => None
                end
            | None => None
            end
          else None
      | [] => None
      end
  end
with parse_elements (fuel : nat) (s : list ascii) (acc : list json)
       {struct fuel} : option (json * list ascii) :=
  match fuel with
  | 0 => None
  | S fuel' =>
      match parse_value fuel' s with
      | Some (v, r1) =>
          match skip_ws r1 with
          | c2 :: r2 =>
              if Ascii.eqb c2 "]"%char then Some (JList (acc ++ [v])%list, r2)
              else if Ascii.eqb c2 ","%char
              then parse_elements fuel' (skip_ws r2) (acc ++ [v])%list
              else None
          | [] => None
          end
      | None => None
      end
  end.

(** [json.loads(s)]: one value, white space around it, nothing else;
    [None] stands for [JSONDecodeError]. *)
Definition loads (s : string) : option json :=
  let l := list_ascii_of_string s in
  match parse_value (S (List.length l)) (skip_ws l) with
  | Some (v, r) => match skip_ws r with [] => Some v | _ :: _ => None end
  | None => None
  end.

End Json.

(** ** The [PaintTools] class of [paint_tools.py] *)

Module PaintTools.
Import PyStr.

Inductive Level : Type := INFO | WARNING | ERROR.

(** A record of the logger; the text of a traceback is not modelled. *)
Inductive LogRecord : Type :=
| Log (level : Level) (msg : string)
| LogTraceback.

(** What the methods do to the desktop, through pywinauto, win32gui,
    win32api and the WScript shell, and the pauses between ([time.sleep],
    in tenths of a second). *)
Inductive GuiAction : Type :=
| StartPaint
| FindWindow
| Maximize
| SetFocus
| ClickWindow (x y : Z)
| FindCanvas
| ClickCanvas (x y : Z)
| CanvasRectangle
| SetCursorPos (x y : Z)
| LeftDown
| LeftUp
| TypeKeys (text : string)
| ShellDispatch
| SendKeys (keys : string)
| Wait (tenths : nat).

(** The handle [Application().start(...)] returns; it is truthy. *)
Inductive App : Type := MSPaint.

Record Rect : Type := mkRect { x1 : Z; y1 : Z; x2 : Z; y2 : Z }.

(** The object ([paint_app], [simulation_mode], [last_rect], the latter
    absent until a rectangle is drawn), what was done to the desktop, and
    the log. *)
Record State : Type := mkState {
  paint_app : option App;
  simulation_mode : bool;
  last_rect : option Rect;
  gui : list GuiAction;
  log : list LogRecord
}.

(** A method body: it reads and changes the state, and returns a value or
    raises an exception (kept as its text, [str(e)]). *)
Definition M (A : Type) : Type := State -> (string + A) * State.

Definition ret {A : Type} (a : A) : M A := fun st => (inr a, st).

Definition raise {A : Type} (msg : string) : M A := fun st => (inl msg, st).

Definition bind {A B : Type} (m : M A) (k : A -> M B) : M B :=
  fun st =>
    match m st with
    | (inr a, st') => k a st'
    | (inl msg, st') => (inl msg, st')
    end.

Notation "x <- m ;; k" := (bind m (fun x => k))
  (at level 61, m at next level, right associativity).
Notation "m ;; k" := (bind m (fun _ => k))
  (at level 61, right associativity).

(** [try: body except Exception as e: handler(str(e))] *)
Definition try_except {A : Type} (body : M A) (handler : string -> M A) : M A :=
  fun st =>
    match body st with
    | (inr a, st') => (inr a, st')
    | (inl msg, st') => handler msg st'
    end.

Definition get : M State := fun st => (inr st, st).

Definition logger (level : Level) (msg : string) : M unit :=
  fun st => (inr tt, mkState (paint_app st) (simulation_mode st) (last_rect st)
                             (gui st) (log st ++ [Log level msg])%list).

Definition log_traceback : M unit :=
  fun st => (inr tt, mkState (paint_app st) (simulation_mode st) (last_rect st)
                             (gui st) (log st ++ [LogTraceback])%list).

Definition set_paint_app (a : App) : M unit :=
  fun st => (inr tt, mkState (Some a) (simulation_mode st) (last_rect st)
                             (gui st) (log st)).

Definition set_last_rect (r : Rect) : M unit :=
  fun st => (inr tt, mkState (paint_app st) (simulation_mode st) (Some r)
                             (gui st) (log st)).

(** [time.sleep]: it never raises. *)
Definition sleep (tenths : nat) : M unit :=
  fun st => (inr tt, mkState (paint_app st) (simulation_mode st) (last_rect st)
                             (gui st ++ [Wait tenths])%list (log st)).

Definition pair_str (x y : Z) : string :=
  "(" ++ str_of_Z x ++ "," ++ str_of_Z y ++ ")".

(** [str] of a tuple of two integers. *)
Definition tuple_str (x y : Z) : string :=
  "(" ++ str_of_Z x ++ ", " ++ str_of_Z y ++ ")".

Definition not_open : string := "Paint is not open. Please call open_paint first.".

(** The literal arrow (U+2192) of the breakdown, as its UTF-8 bytes. *)
Definition arrow : string :=
  String (ascii_of_nat 226) (String (ascii_of_nat 134)
    (String (ascii_of_nat 146) EmptyString)).

(** [[f(x) for x in l]] in the monad: the results in order, or the first
    exception. *)
Fixpoint mapM {A B : Type} (f : A -> M B) (l : list A) : M (list B) :=
  match l with
  | [] => ret []
  | a :: r => b <- f a ;; bs <- mapM f r ;; ret (b :: bs)
  end.

Section Backend.

(** The desktop: whether an action raises (and with what text) after the
    actions done so far, and the left and top of the canvas it reports. *)
Variable gui_raises : list GuiAction -> GuiAction -> option string.
Variable canvas_origin : list GuiAction -> Z * Z.

(** [os.path.dirname(os.path.abspath(__file__))] and [os.path.join]. *)
Variable assignment_path : string.
Variable os_path_join : string -> string -> string.

(** Floating point: [math.exp] on a code ([None] is [OverflowError]),
    addition, the zero [sum] starts from, and the [:.Ne] format. *)
Variable float : Type.
Variable math_exp : nat -> option float.
Variable float_add : float -> float -> float.
Variable float_zero : float.
Variable format_e : nat -> float -> string.

Definition act (a : GuiAction) : M unit :=
  fun st =>
    match gui_raises (gui st) a with
    | Some msg => (inl msg, st)
    | None => (inr tt, mkState (paint_app st) (simulation_mode st) (last_rect st)
                               (gui st ++ [a])%list (log st))
    end.

Definition canvas_rectangle : M (Z * Z) :=
  act CanvasRectangle ;; st <- get ;; ret (canvas_origin (gui st)).

(** [__init__] *)
Definition init (has_windows_modules : bool) : State :=
  let sim := negb has_windows_modules in
  mkState None sim None []
    [Log INFO ("Paint tools initialized (simulation mode: "
               ++ (if sim then "True" else "False") ++ ")");
     if sim
     then Log WARNING "Running in simulation mode - Paint operations will be simulated"
     else Log INFO "Running in real mode - Paint operations will be performed"].

(** [open_paint] (lines 107-139) *)
Definition open_paint : M string :=
  try_except
    (logger INFO "Attempting to open Paint" ;;
     st <- get ;;
     if simulation_mode st then
       logger INFO "SIMULATION: Opening Paint" ;;
       sleep 10 ;;
       ret "SIMULATION: Paint opened successfully"
     else
       logger INFO "Starting Paint application..." ;;
       act StartPaint ;;
       set_paint_app MSPaint ;;
       logger INFO "Paint process started" ;;
       sleep 10 ;;
       logger INFO "Looking for Paint window..." ;;
       act FindWindow ;;
       logger INFO "Found Paint window" ;;
       logger INFO "Maximizing Paint window..." ;;
       act Maximize ;;
       logger INFO "Paint window maximized" ;;
       sleep 10 ;;
       logger INFO "Paint opened successfully" ;;
       ret "Paint opened successfully and maximized")
    (fun e =>
       let error_msg := "Error opening Paint: " ++ e in
       logger ERROR error_msg ;;
       log_traceback ;;
       ret error_msg).

(** [draw_rectangle] (lines 141-225) *)
Definition draw_rectangle (x1 y1 x2 y2 : Z) : M string :=
  try_except
    (st <- get ;;
     if simulation_mode st then
       logger INFO ("SIMULATION: Drawing rectangle from " ++ pair_str x1 y1
                    ++ " to " ++ pair_str x2 y2) ;;
       sleep 10 ;;
       ret ("SIMULATION: Rectangle drawn from " ++ pair_str x1 y1
            ++ " to " ++ pair_str x2 y2)
     else
       match paint_app st with
       | None =>
           logger WARNING "Paint not open, need to call open_paint first" ;;
           ret not_open
       | Some _ =>
           logger INFO ("Drawing rectangle from " ++ pair_str x1 y1
                        ++ " to " ++ pair_str x2 y2) ;;
           act FindWindow ;;
           act SetFocus ;;
           sleep 10 ;;
           logger INFO "Paint window focused" ;;
           act (ClickWindow 512 82) ;;
           sleep 20 ;;
           logger INFO "Clicked at (512,82) for rectangle tool" ;;
           act FindCanvas ;;
           act (ClickCanvas 400 300) ;;
           sleep 10 ;;
           logger INFO "Clicked to ensure canvas focus" ;;
           origin <- canvas_rectangle ;;
           let '(canvas_left, canvas_top) := origin in
           let abs_x1 := (canvas_left + x1)%Z in
           let abs_y1 := (canvas_top + y1)%Z in
           let abs_x2 := (canvas_left + x2)%Z in
           let abs_y2 := (canvas_top + y2)%Z in
           logger INFO ("Absolute positions: " ++ pair_str abs_x1 abs_y1
                        ++ " to " ++ pair_str abs_x2 abs_y2) ;;
           logger INFO ("Moving mouse to start position " ++ pair_str abs_x1 abs_y1) ;;
           act (SetCursorPos abs_x1 abs_y1) ;;
           sleep 10 ;;
           logger INFO "Pressing mouse button" ;;
           act LeftDown ;;
           sleep 10 ;;
           logger INFO ("Moving mouse to end position " ++ pair_str abs_x2 abs_y2) ;;
           act (SetCursorPos abs_x2 abs_y2) ;;
           sleep 10 ;;
           logger INFO "Releasing mouse button" ;;
           act LeftUp ;;
           sleep 10 ;;
           set_last_rect (mkRect x1 y1 x2 y2) ;;
           logger INFO "Rectangle drawn successfully and coordinates stored" ;;
           ret ("Rectangle drawn from " ++ pair_str x1 y1
                ++ " to " ++ pair_str x2 y2)
       end)
    (fun e =>
       let error_msg := "Error drawing rectangle: " ++ e in
       logger ERROR error_msg ;;
       log_traceback ;;
       ret error_msg).

(** [save_paint] (lines 227-275) *)
Definition save_paint (filename : string) : M string :=
  try_except
    (st <- get ;;
     if simulation_mode st then
       logger INFO ("SIMULATION: Saving Paint file as " ++ filename) ;;
       ret ("SIMULATION: File saved as " ++ filename)
     else
       match paint_app st with
       | None =>
           logger WARNING "Paint not open, need to call open_paint first" ;;
           ret not_open
       | Some _ =>
           let full_path := os_path_join assignment_path filename in
           logger INFO ("Saving Paint file to: " ++ full_path) ;;
           act ShellDispatch ;;
           act FindWindow ;;
           act SetFocus ;;
           sleep 10 ;;
           act (SendKeys "^s") ;;
           sleep 20 ;;
           act (SendKeys full_path) ;;
           sleep 10 ;;
           act (SendKeys "{ENTER}") ;;
           sleep 20 ;;
           act (SendKeys "{ENTER}") ;;
           sleep 10 ;;
           logger INFO ("File saved to: " ++ full_path) ;;
           ret ("File saved to Assignment directory as: " ++ filename)
       end)
    (fun e =>
       let error_msg := "Error saving file: " ++ e in
       logger ERROR error_msg ;;
       log_traceback ;;
       ret error_msg).

(** One try of the Text button (the body of the [for] of line 321). *)
Definition try_text_button (pos : Z * Z) : M unit :=
  logger INFO ("Trying Text button at position " ++ tuple_str (fst pos) (snd pos)) ;;
  act (ClickWindow (fst pos) (snd pos)) ;;
  sleep 10.

(** [add_text_in_paint] (lines 277-391) *)
Definition add_text_in_paint (text : string) : M string :=
  try_except
    (st <- get ;;
     if simulation_mode st then
       logger INFO ("SIMULATION: Adding text: '" ++ text ++ "'") ;;
       sleep 10 ;;
       ret ("SIMULATION: Text '" ++ text ++ "' added to Paint")
     else
       match paint_app st with
       | None =>
           logger WARNING "Paint not open, need to call open_paint first" ;;
           ret not_open
       | Some _ =>
           logger INFO ("Adding text: '" ++ text ++ "'") ;;
           act FindWindow ;;
           act SetFocus ;;
           sleep 10 ;;
           logger INFO "Paint window focused" ;;
           act FindCanvas ;;
           origin <- canvas_rectangle ;;
           let '(canvas_left, canvas_top) := origin in
           logger INFO "Activating select tool first to reset state" ;;
           act (ClickWindow 350 82) ;;
           sleep 10 ;;
           logger INFO "Clicking at (0,0) to clear any selections" ;;
           act (SetCursorPos canvas_left canvas_top) ;;
           sleep 5 ;;
           act LeftDown ;;
           sleep 2 ;;
           act LeftUp ;;
           sleep 10 ;;
           logger INFO "Clicking directly on Text button" ;;
           mapM try_text_button
                [(724, 82); (736, 82); (750, 82); (763, 82)]%Z ;;
           st <- get ;;
           center <-
             match last_rect st with
             | Some r =>
                 let center_x := (canvas_left + (x1 r + x2 r) / 2 - 50)%Z in
                 let center_y := (canvas_top + (y1 r + y2 r) / 2)%Z in
                 logger INFO
                   ("Using last rectangle center for text (shifted 50px left): "
                    ++ tuple_str center_x center_y) ;;
                 ret (center_x, center_y)
             | None =>
                 let center_x := (canvas_left + 450)%Z in
                 let center_y := (canvas_top + 275)%Z in
                 logger INFO
                   ("Using fixed center point for text (shifted 50px left): "
                    ++ tuple_str center_x center_y) ;;
                 ret (center_x, center_y)
             end ;;
           let '(center_x, center_y) := center in
           logger INFO ("Creating smaller text area at "
                        ++ tuple_str (center_x - 50) (center_y - 25)) ;;
           act (SetCursorPos (center_x - 50) (center_y - 25)) ;;
           sleep 5 ;;
           act LeftDown ;;
           sleep 5 ;;
           logger INFO ("Dragging to " ++ tuple_str (center_x + 50) (center_y + 25)) ;;
           act (SetCursorPos (center_x + 50) (center_y + 25)) ;;
           sleep 5 ;;
           act LeftUp ;;
           sleep 20 ;;
           logger INFO "Clicking inside the text box" ;;
           act (SetCursorPos center_x center_y) ;;
           sleep 5 ;;
           act LeftDown ;;
           sleep 2 ;;
           act LeftUp ;;
           sleep 10 ;;
           try_except
             (logger INFO ("Typing text with type_keys: '" ++ text ++ "'") ;;
              act (TypeKeys text) ;;
              sleep 10)
             (fun e =>
                logger WARNING ("Error with type_keys: " ++ e
                                ++ ", trying SendKeys instead") ;;
                act ShellDispatch ;;
                logger INFO ("Typing text with SendKeys: '" ++ text ++ "'") ;;
                act (SendKeys text) ;;
                sleep 10) ;;
           logger INFO "Clicking elsewhere to finalize text" ;;
           act (SetCursorPos (canvas_left + 50) (canvas_top + 50)) ;;
           sleep 5 ;;
           act LeftDown ;;
           sleep 5 ;;
           act LeftUp ;;
           sleep 10 ;;
           logger INFO "Text added successfully" ;;
           ret ("Text '" ++ text ++ "' added to Paint")
       end)
    (fun e =>
       let error_msg := "Error adding text: " ++ e in
       logger ERROR error_msg ;;
       log_traceback ;;
       ret error_msg).

(** [math.exp(val)], raising [OverflowError] with its text. *)
Definition exp_of (code : nat) : M float :=
  match math_exp code with
  | Some v => ret v
  | None => raise "math range error"
  end.

(** [sum(exp_values)]: from the left, starting at zero. *)
Definition sum (exp_values : list float) : float :=
  fold_left float_add exp_values float_zero.

(** One entry of the breakdown: the character, its code, the exponential
    of the code with two digits. *)
Definition detail (c : ascii) : M string :=
  v <- exp_of (nat_of_ascii c) ;;
  ret (String c EmptyString ++ "=" ++ str_of_nat (nat_of_ascii c) ++ arrow
       ++ "e^" ++ str_of_nat (nat_of_ascii c) ++ "=" ++ format_e 2 v).

(** [calculate_ascii_exp_sum] (lines 393-421) *)
Definition calculate_ascii_exp_sum (input_string : string) : M string :=
  try_except
    (if String.eqb input_string "" then ret "Input string is empty"
     else
       logger INFO ("Calculating ASCII exponential sum for: '"
                    ++ input_string ++ "'") ;;
       let chars := list_ascii_of_string input_string in
       let ascii_values := map nat_of_ascii chars in
       exp_values <- mapM exp_of ascii_values ;;
       let total_sum := sum exp_values in
       details <- mapM detail chars ;;
       let ascii_details := join ", " details in
       logger INFO ("ASCII values: [" ++ join ", " (map str_of_nat ascii_values)
                    ++ "]") ;;
       logger INFO ("Exponential values: ["
                    ++ join ", " (map (fun v => "'" ++ format_e 2 v ++ "'") exp_values)
                    ++ "]") ;;
       logger INFO ("Sum of exponentials: " ++ format_e 6 total_sum) ;;
       ret ("Sum of exponentials of ASCII values for '" ++ input_string
            ++ "': " ++ format_e 6 total_sum ++ nl
            ++ "Details: " ++ ascii_details))
    (fun e =>
       let error_msg := "Error calculating ASCII exponential sum: " ++ e in
       logger ERROR error_msg ;;
       log_traceback ;;
       ret error_msg).

(** *** Properties of the tool server *)

(** A computation that neither reads nor changes the state: it has one
    result, whatever the state. *)
Definition stateless {A : Type} (m : M A) : Prop :=
  exists r, forall st, m st = (r, st).

Lemma stateless_ret {A : Type} (a : A) : stateless (ret a).
Proof. exists (inr a). reflexivity. Qed.

Lemma stateless_bind {A B : Type} (m : M A) (k : A -> M B) :
  stateless m -> (forall a, stateless (k a)) -> stateless (bind m k).
Proof.
  intros [r Hm] Hk. destruct r as [msg | a].
  - exists (inl msg). intros st. unfold bind. rewrite Hm. reflexivity.
  - destruct (Hk a) as [r Hr]. exists r. intros st. unfold bind.
    rewrite Hm. apply Hr.
Qed.

Lemma stateless_exp_of (code : nat) : stateless (exp_of code).
Proof.
  unfold exp_of. destruct (math_exp code) as [v |].
  - apply stateless_ret.
  - exists (inl "math range error"). reflexivity.
Qed.

Lemma stateless_detail (c : ascii) : stateless (detail c).
Proof.
  unfold detail. apply stateless_bind.
  - apply stateless_exp_of.
  - intros v. apply stateless_ret.
Qed.

Lemma stateless_mapM {A B : Type} (f : A -> M B) (l : list A) :
  (forall a, stateless (f a)) -> stateless (mapM f l).
Proof.
  intros Hf. induction l as [| a l IH]; simpl.
  - apply stateless_ret.
  - apply stateless_bind; [apply Hf |]. intros b.
    apply stateless_bind; [exact IH |]. intros bs. apply stateless_ret.
Qed.

(** The fields of the object and the desktop, without the log. *)
Definition same_but_log (st st' : State) : Prop :=
  paint_app st' = paint_app st /\ simulation_mode st' = simulation_mode st
  /\ last_rect st' = last_rect st /\ gui st' = gui st.

Lemma same_but_log_refl (st : State) : same_but_log st st.
Proof. repeat split. Qed.

(** The result of the transform does not depend on the state it is called
    in, and it changes nothing but the log. *)
Lemma calculate_ascii_exp_sum_result (input_string : string) :
  exists r : string,
    forall st, exists st',
      calculate_ascii_exp_sum input_string st
      = (inr r, st') /\ same_but_log st st'.
Proof.
  unfold calculate_ascii_exp_sum, try_except.
  destruct (String.eqb input_string "") eqn:He.
  - exists "Input string is empty". intros st. exists st.
    split; [reflexivity | apply same_but_log_refl].
  - destruct (stateless_mapM (exp_of)
                (map nat_of_ascii (list_ascii_of_string input_string))
                stateless_exp_of) as [[msg | vs] Hexp].
    + eexists. intros st. eexists. unfold bind, logger at 1.
      rewrite Hexp. unfold logger, log_traceback, ret. cbn.
      split; [reflexivity | repeat split].
    + destruct (stateless_mapM (detail)
                  (list_ascii_of_string input_string)
                  stateless_detail) as [[msg | ds] Hdet].
      * eexists. intros st. eexists. unfold bind, logger at 1.
        rewrite Hexp, Hdet. unfold logger, log_traceback, ret. cbn.
        split; [reflexivity | repeat split].
      * eexists. intros st. eexists. unfold bind, logger at 1.
        rewrite Hexp, Hdet. unfold logger, ret. cbn.
        split; [reflexivity | repeat split].
Qed.

(** C7. Given the empty string, [calculate_ascii_exp_sum] returns the text
    "Input string is empty" and leaves the state as it was; that text is not
    the report of a sum (of zero, or of anything else). *)
Theorem calculate_ascii_exp_sum_empty (st : State) :
  calculate_ascii_exp_sum "" st
  = (inr "Input string is empty", st)
  /\ forall total : float,
       "Input string is empty"
       <> "Sum of exponentials of ASCII values for '': " ++ format_e 6 total
          ++ nl ++ "Details: ".
Proof.
  split; [reflexivity |]. intros total. discriminate.
Qed.

(** C9. [calculate_ascii_exp_sum] is deterministic: for every input string
    (in particular every non-empty one) two invocations, in whatever states
    of the server, return the same text, which holds the sum and the
    per-character breakdown; this holds as well for an invocation that
    follows another one. *)
Theorem calculate_ascii_exp_sum_deterministic (input_string : string) (st1 st2 : State) :
  let run := calculate_ascii_exp_sum input_string in
  fst (run st1) = fst (run st2)
  /\ fst (run (snd (run st1))) = fst (run st1).
Proof.
  destruct (calculate_ascii_exp_sum_result input_string) as [r Hr].
  cbv zeta.
  destruct (Hr st1) as [st1' [H1 _]]. destruct (Hr st2) as [st2' [H2 _]].
  rewrite H1, H2. cbn. destruct (Hr st1') as [st1'' [H3 _]].
  rewrite H3. split; reflexivity.
Qed.

(** C10. In real mode, before [open_paint] has succeeded ([paint_app] is
    [None]), each of [draw_rectangle], [add_text_in_paint] and [save_paint]
    returns "Paint is not open. Please call open_paint first." and does
    nothing to the desktop or to the object: the state it leaves differs
    from the one it found by one warning in the log. *)
Theorem paint_not_open_guard (st : State) (a b c d : Z) (text filename : string) :
  simulation_mode st = false ->
  paint_app st = None ->
  let st' := mkState (paint_app st) (simulation_mode st) (last_rect st) (gui st)
               (log st ++ [Log WARNING "Paint not open, need to call open_paint first"])
  in
  draw_rectangle a b c d st = (inr not_open, st')
  /\ add_text_in_paint text st = (inr not_open, st')
  /\ save_paint filename st = (inr not_open, st').
Proof.
  intros Hsim Happ. destruct st as [app sim rect g l].
  simpl in Hsim, Happ. subst app sim. cbv zeta.
  split; [reflexivity | split; reflexivity].
Qed.

(** The report of the transform when every exponential is [f] of the code:
    the sum with six digits, then the breakdown. *)
Definition report (input_string : string) (f : nat -> float) : string :=
  let chars := list_ascii_of_string input_string in
  "Sum of exponentials of ASCII values for '" ++ input_string ++ "': "
  ++ format_e 6 (sum (map f (map nat_of_ascii chars))) ++ nl
  ++ "Details: "
  ++ join ", "
       (map (fun c => String c EmptyString ++ "=" ++ str_of_nat (nat_of_ascii c)
                      ++ arrow ++ "e^" ++ str_of_nat (nat_of_ascii c) ++ "="
                      ++ format_e 2 (f (nat_of_ascii c))) chars).

Lemma mapM_exp_of_values (f : nat -> float) (codes : list nat) (st : State) :
  (forall n, In n codes -> math_exp n = Some (f n)) ->
  mapM exp_of codes st = (inr (map f codes), st).
Proof.
  induction codes as [| n codes IH]; intros Hf; simpl.
  - reflexivity.
  - unfold bind at 1. unfold exp_of at 1. rewrite (Hf n (or_introl eq_refl)).
    unfold ret at 1. unfold bind at 1. rewrite IH.
    + reflexivity.
    + intros m Hm. apply Hf. right. exact Hm.
Qed.

Lemma mapM_detail_values (f : nat -> float) (chars : list ascii) (st : State) :
  (forall c, In c chars -> math_exp (nat_of_ascii c) = Some (f (nat_of_ascii c))) ->
  mapM detail chars st
  = (inr (map (fun c => String c EmptyString ++ "=" ++ str_of_nat (nat_of_ascii c)
                        ++ arrow ++ "e^" ++ str_of_nat (nat_of_ascii c) ++ "="
                        ++ format_e 2 (f (nat_of_ascii c))) chars), st).
Proof.
  induction chars as [| c chars IH]; intros Hf; simpl.
  - reflexivity.
  - unfold bind at 1. unfold detail at 1. unfold bind at 1. unfold exp_of at 1.
    rewrite (Hf c (or_introl eq_refl)). unfold ret at 1 2. unfold bind at 1.
    rewrite IH.
    + reflexivity.
    + intros d Hd. apply Hf. right. exact Hd.
Qed.

(** X1. The transform of a non-empty string whose exponentials are all defined
    ([math.exp] does not overflow on any of its codes) returns the report:
    the sum, from the left, of the exponentials of the codes, and for each
    character the character, its code and the exponential of the code. *)
Theorem calculate_ascii_exp_sum_report (input_string : string) (f : nat -> float)
        (st : State) :
  input_string <> "" ->
  (forall c, In c (list_ascii_of_string input_string) ->
             math_exp (nat_of_ascii c) = Some (f (nat_of_ascii c))) ->
  fst (calculate_ascii_exp_sum input_string st) = inr (report input_string f).
Proof.
  intros Hne Hf. unfold calculate_ascii_exp_sum, try_except.
  destruct (String.eqb input_string "") eqn:He.
  { apply String.eqb_eq in He. contradiction. }
  unfold bind at 1. unfold logger at 1. unfold bind at 1.
  rewrite (mapM_exp_of_values f).
  - unfold bind at 1. rewrite (mapM_detail_values f) by exact Hf.
    reflexivity.
  - intros n Hn. apply in_map_iff in Hn. destruct Hn as (c & <- & Hc).
    apply Hf. exact Hc.
Qed.

(** *** Exceptions stay inside the methods *)

(** A computation that always returns a value. *)
Definition returns {A : Type} (m : M A) : Prop :=
  forall st, exists v st', m st = (inr v, st').

Lemma returns_try_except {A : Type} (body : M A) (handler : string -> M A) :
  (forall e, returns (handler e)) -> returns (try_except body handler).
Proof.
  intros Hh st. unfold try_except.
  destruct (body st) as [[e | v] st1].
  - apply Hh.
  - exists v, st1. reflexivity.
Qed.

Lemma returns_report_error (prefix e : string) :
  returns (logger ERROR (prefix ++ e) ;; log_traceback ;; ret (prefix ++ e)).
Proof. intros st. do 2 eexists. reflexivity. Qed.

(** X6. None of the methods of [PaintTools] lets an exception out: whatever
    the desktop does, each of [open_paint], [draw_rectangle], [save_paint],
    [add_text_in_paint] and [calculate_ascii_exp_sum] returns a text. *)
Theorem methods_return_text (a b c d : Z) (text filename input_string : string) :
  returns open_paint
  /\ returns (draw_rectangle a b c d)
  /\ returns (save_paint filename)
  /\ returns (add_text_in_paint text)
  /\ returns (calculate_ascii_exp_sum input_string).
Proof.
  split; [| split; [| split; [| split]]];
    apply returns_try_except; intros e; apply returns_report_error.
Qed.

(** *** What the methods keep *)

(** [st'] comes after [st]: the mode is the same, the desktop trace and the
    log have only grown, and a handle or a rectangle that was there is still
    there. *)
Definition extends (st st' : State) : Prop :=
  simulation_mode st' = simulation_mode st
  /\ (forall app, paint_app st = Some app -> paint_app st' = Some app)
  /\ (last_rect st <> None -> last_rect st' <> None)
  /\ (exists g, gui st' = (gui st ++ g)%list)
  /\ (exists l, log st' = (log st ++ l)%list).

Lemma extends_refl (st : State) : extends st st.
Proof.
  repeat split; auto; exists []; rewrite app_nil_r; reflexivity.
Qed.

Lemma extends_trans (s1 s2 s3 : State) :
  extends s1 s2 -> extends s2 s3 -> extends s1 s3.
Proof.
  intros (Hm & Ha & Hr & [g Hg] & [l Hl]) (Hm' & Ha' & Hr' & [g' Hg'] & [l' Hl']).
  repeat split.
  - congruence.
  - auto.
  - auto.
  - exists (g ++ g')%list. rewrite Hg', Hg, app_assoc. reflexivity.
  - exists (l ++ l')%list. rewrite Hl', Hl, app_assoc. reflexivity.
Qed.

Definition grows {A : Type} (m : M A) : Prop :=
  forall st, extends st (snd (m st)).

Lemma grows_ret {A : Type} (a : A) : grows (ret a).
Proof. intros st. apply extends_refl. Qed.

Lemma grows_raise {A : Type} (msg : string) : grows (@raise A msg).
Proof. intros st. apply extends_refl. Qed.

Lemma grows_get : grows get.
Proof. intros st. apply extends_refl. Qed.

Lemma grows_logger (lv : Level) (msg : string) : grows (logger lv msg).
Proof.
  intros st. repeat split; simpl; auto.
  - exists []. rewrite app_nil_r. reflexivity.
  - eexists. reflexivity.
Qed.

Lemma grows_log_traceback : grows log_traceback.
Proof.
  intros st. repeat split; simpl; auto.
  - exists []. rewrite app_nil_r. reflexivity.
  - eexists. reflexivity.
Qed.

Lemma grows_sleep (tenths : nat) : grows (sleep tenths).
Proof.
  intros st. repeat split; simpl; auto.
  - eexists. reflexivity.
  - exists []. rewrite app_nil_r. reflexivity.
Qed.

Lemma grows_act (a : GuiAction) : grows (act a).
Proof.
  intros st. unfold act. destruct (gui_raises (gui st) a); simpl.
  - apply extends_refl.
  - repeat split; simpl; auto.
    + eexists. reflexivity.
    + exists []. rewrite app_nil_r. reflexivity.
Qed.

Lemma grows_set_paint_app : grows (set_paint_app MSPaint).
Proof.
  intros st. repeat split; simpl; auto.
  - intros []. reflexivity.
  - exists []. rewrite app_nil_r. reflexivity.
  - exists []. rewrite app_nil_r. reflexivity.
Qed.

Lemma grows_set_last_rect (r : Rect) : grows (set_last_rect r).
Proof.
  intros st. repeat split; simpl; auto.
  - discriminate.
  - exists []. rewrite app_nil_r. reflexivity.
  - exists []. rewrite app_nil_r. reflexivity.
Qed.

Lemma grows_bind {A B : Type} (m : M A) (k : A -> M B) :
  grows m -> (forall a, grows (k a)) -> grows (bind m k).
Proof.
  intros Hm Hk st. unfold bind. specialize (Hm st).
  destruct (m st) as [[e | a] st1]; simpl in *.
  - exact Hm.
  - eapply extends_trans; [exact Hm | apply Hk].
Qed.

Lemma grows_try_except {A : Type} (body : M A) (handler : string -> M A) :
  grows body -> (forall e, grows (handler e)) -> grows (try_except body handler).
Proof.
  intros Hb Hh st. unfold try_except. specialize (Hb st).
  destruct (body st) as [[e | a] st1]; simpl in *.
  - eapply extends_trans; [exact Hb | apply Hh].
  - exact Hb.
Qed.

Lemma grows_mapM {A B : Type} (f : A -> M B) (l : list A) :
  (forall a, grows (f a)) -> grows (mapM f l).
Proof.
  intros Hf. induction l as [| a l IH]; simpl.
  - apply grows_ret.
  - apply grows_bind; [apply Hf |]. intros b.
    apply grows_bind; [exact IH |]. intros bs. apply grows_ret.
Qed.

Ltac grows_step :=
  first
    [ match goal with
      | |- grows (if ?b then _ else _) => destruct b
      | |- grows (match ?x with _ => _ end) => destruct x
      end
    | simple apply grows_ret | simple apply grows_raise | simple apply grows_get
    | simple apply grows_logger | simple apply grows_log_traceback
    | simple apply grows_sleep | simple apply grows_act
    | simple apply grows_set_paint_app | simple apply grows_set_last_rect
    | simple apply grows_bind; [| intros ?; cbv beta]
    | simple apply grows_try_except; [| intros ?; cbv beta]
    | simple apply grows_mapM; intros ?; cbv beta ].

(** X7. Every method of [PaintTools] keeps the mode it runs in, only adds to
    the trace of desktop actions and to the log, and never drops the handle
    of the application or the stored rectangle once they are there. *)
Theorem methods_extend_state (a b c d : Z) (text filename input_string : string) :
  grows open_paint
  /\ grows (draw_rectangle a b c d)
  /\ grows (save_paint filename)
  /\ grows (add_text_in_paint text)
  /\ grows (calculate_ascii_exp_sum input_string).
Proof.
  split; [| split; [| split; [| split]]];
    unfold open_paint, draw_rectangle, save_paint, add_text_in_paint,
      calculate_ascii_exp_sum, canvas_rectangle, try_text_button, detail, exp_of;
    repeat grows_step.
Qed.

(** *** Simulation mode *)

(** In state [st] the method [m] returns [text], adds [waits] to the desktop
    trace, and leaves the handle and the stored rectangle alone. *)
Definition simulated (m : M string) (text : string) (waits : list GuiAction)
           (st : State) : Prop :=
  fst (m st) = inr text
  /\ gui (snd (m st)) = (gui st ++ waits)%list
  /\ paint_app (snd (m st)) = paint_app st
  /\ last_rect (snd (m st)) = last_rect st.

(** X8. In simulation mode no method touches the desktop, whatever the
    desktop would do: [open_paint], [draw_rectangle] and [add_text_in_paint]
    only wait one second, [save_paint] does not even wait, each returns its
    text marked SIMULATION, and neither the handle nor the stored rectangle
    changes (so a simulated [open_paint] opens nothing). *)
Theorem simulation_mode_leaves_desktop (st : State) (a b c d : Z)
        (text filename : string) :
  simulation_mode st = true ->
  simulated open_paint "SIMULATION: Paint opened successfully" [Wait 10] st
  /\ simulated (draw_rectangle a b c d)
       ("SIMULATION: Rectangle drawn from " ++ pair_str a b ++ " to " ++ pair_str c d)
       [Wait 10] st
  /\ simulated (add_text_in_paint text)
       ("SIMULATION: Text '" ++ text ++ "' added to Paint") [Wait 10] st
  /\ simulated (save_paint filename) ("SIMULATION: File saved as " ++ filename) [] st.
Proof.
  intros Hsim. destruct st as [app sim rect g l]. simpl in Hsim. subst sim.
  unfold simulated.
  split; [| split; [| split]]; (split; [reflexivity |]);
    (split; [simpl; try rewrite app_nil_r; reflexivity |]);
    split; reflexivity.
Qed.

(** *** Real mode *)

(** X9. In real mode [open_paint] keeps the handle of the application as
    soon as the application has started: when the start raises, the method
    reports the error and neither the handle nor the desktop has changed;
    when the start succeeds the handle is set, even if finding or maximizing
    the window then fails; and when nothing raises it reports success. *)
Theorem open_paint_sets_handle (st : State) :
  simulation_mode st = false ->
  (forall e, gui_raises (gui st) StartPaint = Some e ->
     fst (open_paint st) = inr ("Error opening Paint: " ++ e)
     /\ paint_app (snd (open_paint st)) = paint_app st
     /\ gui (snd (open_paint st)) = gui st)
  /\ (gui_raises (gui st) StartPaint = None ->
      paint_app (snd (open_paint st)) = Some MSPaint)
  /\ ((forall g a, gui_raises g a = None) ->
      fst (open_paint st) = inr "Paint opened successfully and maximized").
Proof.
  intros Hsim. destruct st as [app sim rect g l]. simpl in Hsim. subst sim.
  unfold open_paint, try_except, bind, get, act, logger, sleep, set_paint_app,
    log_traceback, ret.
  cbn [simulation_mode gui paint_app last_rect log fst snd].
  split; [| split].
  - intros e He. rewrite He. repeat split.
  - intros He. rewrite He.
    cbn [simulation_mode gui paint_app last_rect log fst snd].
    repeat (match goal with
            | |- context [gui_raises ?t ?a] => destruct (gui_raises t a)
            end; cbn [simulation_mode gui paint_app last_rect log fst snd]);
      reflexivity.
  - intros Hok.
    repeat (rewrite Hok; cbn [simulation_mode gui paint_app last_rect log fst snd]).
    reflexivity.
Qed.

Ltac run_gui :=
  repeat (match goal with
          | |- context [gui_raises ?t ?a] => destruct (gui_raises t a) eqn:?
          | |- context [canvas_origin ?t] => destruct (canvas_origin t) eqn:?
          end; cbn [simulation_mode gui paint_app last_rect log fst snd]).

(** X10. In real mode with the application open, [draw_rectangle] stores
    the rectangle exactly when it reports success: either it returns
    "Rectangle drawn from (x1,y1) to (x2,y2)" and [last_rect] holds the four
    coordinates, or it returns "Error drawing rectangle: ..." with the text
    of the exception and [last_rect] is what it was. *)
Theorem draw_rectangle_stores_on_success (st : State) (app : App) (a b c d : Z) :
  simulation_mode st = false ->
  paint_app st = Some app ->
  (fst (draw_rectangle a b c d st)
   = inr ("Rectangle drawn from " ++ pair_str a b ++ " to " ++ pair_str c d)
   /\ last_rect (snd (draw_rectangle a b c d st)) = Some (mkRect a b c d))
  \/ (exists e,
        fst (draw_rectangle a b c d st) = inr ("Error drawing rectangle: " ++ e)
        /\ last_rect (snd (draw_rectangle a b c d st)) = last_rect st).
Proof.
  intros Hsim Happ. destruct st as [app0 sim rect g l]. simpl in Hsim, Happ.
  subst sim app0.
  unfold draw_rectangle, canvas_rectangle, try_except, bind, get, act, logger,
    sleep, set_last_rect, log_traceback, ret.
  cbn [simulation_mode gui paint_app last_rect log fst snd].
  run_gui;
    first [ left; split; reflexivity
          | right; eexists; split; reflexivity ].
Qed.

(** Where [add_text_in_paint] puts the text (lines 327-336): the centre of
    the last rectangle drawn, 50 pixels to the left, or a fixed point of the
    canvas when no rectangle was drawn; [origin] is the left and top of the
    canvas on the screen. *)
Definition text_anchor (origin : Z * Z) (rect : option Rect) : Z * Z :=
  match rect with
  | Some r => (fst origin + (x1 r + x2 r) / 2 - 50, snd origin + (y1 r + y2 r) / 2)%Z
  | None => (fst origin + 450, snd origin + 275)%Z
  end.

(** The gesture that makes the text box around [(cx, cy)] and types into it. *)
Definition text_box_gesture (cx cy : Z) (text : string) : list GuiAction :=
  [SetCursorPos (cx - 50) (cy - 25); Wait 5; LeftDown; Wait 5;
   SetCursorPos (cx + 50) (cy + 25); Wait 5; LeftUp; Wait 20;
   SetCursorPos cx cy; Wait 5; LeftDown; Wait 2; LeftUp; Wait 10;
   TypeKeys text; Wait 10].

Ltac run_ok Hok Horigin :=
  repeat (first [rewrite Hok | rewrite Horigin];
          cbn [simulation_mode gui paint_app last_rect log fst snd]).

Lemma add_text_in_paint_cooperative (st : State) (app : App) (text : string)
      (origin : Z * Z) :
  simulation_mode st = false ->
  paint_app st = Some app ->
  (forall g a, gui_raises g a = None) ->
  (forall g, canvas_origin g = origin) ->
  fst (add_text_in_paint text st) = inr ("Text '" ++ text ++ "' added to Paint")
  /\ last_rect (snd (add_text_in_paint text st)) = last_rect st
  /\ exists before after,
       gui (snd (add_text_in_paint text st))
       = (gui st ++ before
          ++ text_box_gesture (fst (text_anchor origin (last_rect st)))
                              (snd (text_anchor origin (last_rect st))) text
          ++ after)%list.
Proof.
  intros Hsim Happ Hok Horigin. destruct st as [app0 sim rect g l].
  simpl in Hsim, Happ. subst sim app0. destruct origin as [left_ top_].
  unfold add_text_in_paint. cbn [mapM].
  unfold try_text_button, canvas_rectangle, try_except, bind, get, act, logger,
    sleep, log_traceback, ret.
  cbn [simulation_mode gui paint_app last_rect log fst snd].
  run_ok Hok Horigin.
  destruct rect as [r |];
    cbn [simulation_mode gui paint_app last_rect log fst snd text_anchor];
    run_ok Hok Horigin;
    (split; [reflexivity |]); (split; [reflexivity |]);
    exists [FindWindow; SetFocus; Wait 10; FindCanvas; CanvasRectangle;
            ClickWindow 350 82; Wait 10; SetCursorPos left_ top_; Wait 5;
            LeftDown; Wait 2; LeftUp; Wait 10;
            ClickWindow 724 82; Wait 10; ClickWindow 736 82; Wait 10;
            ClickWindow 750 82; Wait 10; ClickWindow 763 82; Wait 10],
           [SetCursorPos (left_ + 50) (top_ + 50); Wait 5; LeftDown; Wait 5;
            LeftUp; Wait 10];
    repeat rewrite <- app_assoc; reflexivity.
Qed.

(** X11. In real mode, with the application open and a desktop that raises
    nothing, [add_text_in_paint] reports success, leaves the stored rectangle
    alone, and types the text into a box of 100 by 50 pixels that it drags
    around the anchor: the centre of the last rectangle drawn moved 50 pixels
    to the left, or the point (450, 275) of the canvas when no rectangle was
    drawn. *)
Theorem add_text_in_paint_anchor (st : State) (app : App) (text : string)
        (origin : Z * Z) :
  simulation_mode st = false ->
  paint_app st = Some app ->
  (forall g a, gui_raises g a = None) ->
  (forall g, canvas_origin g = origin) ->
  fst (add_text_in_paint text st) = inr ("Text '" ++ text ++ "' added to Paint")
  /\ last_rect (snd (add_text_in_paint text st)) = last_rect st
  /\ exists before after,
       gui (snd (add_text_in_paint text st))
       = (gui st ++ before
          ++ text_box_gesture (fst (text_anchor origin (last_rect st)))
                              (snd (text_anchor origin (last_rect st))) text
          ++ after)%list.
Proof. apply add_text_in_paint_cooperative. Qed.

Lemma draw_rectangle_cooperative (st : State) (app : App) (a b c d : Z)
      (origin : Z * Z) :
  simulation_mode st = false ->
  paint_app st = Some app ->
  (forall g a, gui_raises g a = None) ->
  (forall g, canvas_origin g = origin) ->
  fst (draw_rectangle a b c d st)
  = inr ("Rectangle drawn from " ++ pair_str a b ++ " to " ++ pair_str c d)
  /\ last_rect (snd (draw_rectangle a b c d st)) = Some (mkRect a b c d)
  /\ paint_app (snd (draw_rectangle a b c d st)) = Some app
  /\ simulation_mode (snd (draw_rectangle a b c d st)) = false
  /\ gui (snd (draw_rectangle a b c d st))
     = (gui st
        ++ [FindWindow; SetFocus; Wait 10; ClickWindow 512 82; Wait 20;
            FindCanvas; ClickCanvas 400 300; Wait 10; CanvasRectangle;
            SetCursorPos (fst origin + a) (snd origin + b); Wait 10;
            LeftDown; Wait 10;
            SetCursorPos (fst origin + c) (snd origin + d); Wait 10;
            LeftUp; Wait 10])%list.
Proof.
  intros Hsim Happ Hok Horigin. destruct st as [app0 sim rect g l].
  simpl in Hsim, Happ. subst sim app0. destruct origin as [left_ top_].
  unfold draw_rectangle, canvas_rectangle, try_except, bind, get, act, logger,
    sleep, set_last_rect, log_traceback, ret.
  cbn [simulation_mode gui paint_app last_rect log fst snd].
  run_ok Hok Horigin.
  repeat split. repeat rewrite <- app_assoc. reflexivity.
Qed.

(** X12. Drawing then writing, on a desktop that raises nothing: the
    rectangle is dragged from its first corner to its second, relative to the
    canvas, and the text box that [add_text_in_paint] then drags is centred
    50 pixels left of the centre of that rectangle; when the rectangle is at
    least 200 pixels wide and 50 pixels high the text box lies inside it. *)
Theorem text_box_inside_drawn_rectangle (st : State) (app : App) (a b c d : Z)
        (text : string) (origin : Z * Z) :
  simulation_mode st = false ->
  paint_app st = Some app ->
  (forall g a, gui_raises g a = None) ->
  (forall g, canvas_origin g = origin) ->
  (a + 200 <= c)%Z ->
  (b + 50 <= d)%Z ->
  let st1 := snd (draw_rectangle a b c d st) in
  let cx := (fst origin + (a + c) / 2 - 50)%Z in
  let cy := (snd origin + (b + d) / 2)%Z in
  (exists before after,
     gui (snd (add_text_in_paint text st1))
     = (gui st1 ++ before ++ text_box_gesture cx cy text ++ after)%list)
  /\ (fst origin + a <= cx - 50 /\ cx + 50 <= fst origin + c)%Z
  /\ (snd origin + b <= cy - 25 /\ cy + 25 <= snd origin + d)%Z.
Proof.
  intros Hsim Happ Hok Horigin Hw Hh st1 cx cy.
  destruct (draw_rectangle_cooperative st app a b c d origin Hsim Happ Hok Horigin)
    as (_ & Hrect & Happ1 & Hsim1 & _).
  fold st1 in Hrect, Happ1, Hsim1.
  destruct (add_text_in_paint_cooperative st1 app text origin Hsim1 Happ1 Hok Horigin)
    as (_ & _ & before & after & Hgui).
  rewrite Hrect in Hgui. cbn [text_anchor x1 x2 y1 y2 fst snd] in Hgui.
  split; [exists before, after; exact Hgui |].
  subst cx cy.
  pose proof (Z.div_mod (a + c) 2) as Hx. pose proof (Z.mod_pos_bound (a + c) 2) as Hx'.
  pose proof (Z.div_mod (b + d) 2) as Hy. pose proof (Z.mod_pos_bound (b + d) 2) as Hy'.
  lia.
Qed.

(** X13. When typing the text through pywinauto raises (and nothing else
    does), [add_text_in_paint] falls back on the WScript shell: it logs a
    warning, sends the text with [SendKeys], and still reports success. *)
Theorem add_text_in_paint_fallback (st : State) (app : App) (text e : string)
        (origin : Z * Z) :
  simulation_mode st = false ->
  paint_app st = Some app ->
  (forall g a, gui_raises g a = match a with TypeKeys _ => Some e | _ => None end) ->
  (forall g, canvas_origin g = origin) ->
  fst (add_text_in_paint text st) = inr ("Text '" ++ text ++ "' added to Paint")
  /\ In (Log WARNING ("Error with type_keys: " ++ e ++ ", trying SendKeys instead"))
        (log (snd (add_text_in_paint text st)))
  /\ exists before,
       gui (snd (add_text_in_paint text st))
       = (gui st ++ before
          ++ [ShellDispatch; SendKeys text; Wait 10;
              SetCursorPos (fst origin + 50) (snd origin + 50); Wait 5; LeftDown;
              Wait 5; LeftUp; Wait 10])%list.
Proof.
  intros Hsim Happ Hok Horigin. destruct st as [app0 sim rect g l].
  simpl in Hsim, Happ. subst sim app0. destruct origin as [left_ top_].
  unfold add_text_in_paint. cbn [mapM].
  unfold try_text_button, canvas_rectangle, try_except, bind, get, act, logger,
    sleep, log_traceback, ret.
  cbn [simulation_mode gui paint_app last_rect log fst snd].
  run_ok Hok Horigin.
  destruct rect as [r |];
    cbn [simulation_mode gui paint_app last_rect log fst snd];
    run_ok Hok Horigin;
    (split; [reflexivity |]);
    (split; [repeat rewrite <- app_assoc; apply in_or_app; right;
             cbn [List.app In];
             repeat (first [left; reflexivity | right]) |]);
    repeat rewrite <- app_assoc; cbn [List.app];
    match goal with
    | |- exists before, (g ++ ?L)%list = (g ++ before ++ ?S)%list =>
        exists (firstn (List.length L - List.length S) L); reflexivity
    end.
Qed.

End Backend.

Arguments exp_of {float} math_exp code.
Arguments sum {float} float_add float_zero exp_values.
Arguments detail {float} math_exp format_e c.
Arguments calculate_ascii_exp_sum {float} math_exp float_add float_zero format_e
  input_string.
Arguments report {float} float_add float_zero format_e input_string f.

End PaintTools.

(** ** The [GmailTools] class of [paint_tools.py] *)

Module GmailTools.
Import PyStr.

Definition Level : Type := PaintTools.Level.
Definition INFO : Level := PaintTools.INFO.
Definition WARNING : Level := PaintTools.WARNING.
Definition ERROR : Level := PaintTools.ERROR.
Definition LogRecord : Type := PaintTools.LogRecord.
Definition Log (level : Level) (msg : string) : LogRecord := PaintTools.Log level msg.
Definition LogTraceback : LogRecord := PaintTools.LogTraceback.

(** The part that carries the attachment: [MIMEText] of the decoded data,
    [MIMEImage] or [MIMEApplication] of the data, each with its subtype and
    the file name of its Content-Disposition header. *)
Inductive Part : Type :=
| TextPart (subtype text filename : string)
| ImagePart (subtype data filename : string)
| ApplicationPart (subtype data filename : string).

(** The multipart message: its headers, its plain text body, its attachment. *)
Record Message : Type := mkMessage {
  msg_from : option string;
  msg_to : string;
  msg_subject : string;
  msg_body : string;
  msg_attachment : option Part
}.

(** What [send_email] does to the mail server. *)
Inductive SmtpAction : Type :=
| Connect (host : string) (port : nat)
| Login (user password : option string)
| SendMessage (m : Message).

(** The object ([gmail_address], [gmail_app_password], [simulation_mode]),
    what was done to the mail server, and the log. *)
Record State : Type := mkState {
  gmail_address : option string;
  gmail_app_password : option string;
  simulation_mode : bool;
  smtp : list SmtpAction;
  log : list LogRecord
}.

(** A method body: a value or an exception (its text), and the new state. *)
Definition M (A : Type) : Type := State -> (string + A) * State.

Definition ret {A : Type} (a : A) : M A := fun st => (inr a, st).

Definition raise {A : Type} (msg : string) : M A := fun st => (inl msg, st).

Definition bind {A B : Type} (m : M A) (k : A -> M B) : M B :=
  fun st =>
    match m st with
    | (inr a, st') => k a st'
    | (inl msg, st') => (inl msg, st')
    end.

Notation "x <- m ;; k" := (bind m (fun x => k))
  (at level 61, m at next level, right associativity).
Notation "m ;; k" := (bind m (fun _ => k))
  (at level 61, right associativity).

Definition try_except {A : Type} (body : M A) (handler : string -> M A) : M A :=
  fun st =>
    match body st with
    | (inr a, st') => (inr a, st')
    | (inl msg, st') => handler msg st'
    end.

Definition get : M State := fun st => (inr st, st).

Definition logger (level : Level) (msg : string) : M unit :=
  fun st => (inr tt, mkState (gmail_address st) (gmail_app_password st)
                             (simulation_mode st) (smtp st)
                             (log st ++ [Log level msg])%list).

Definition log_traceback : M unit :=
  fun st => (inr tt, mkState (gmail_address st) (gmail_app_password st)
                             (simulation_mode st) (smtp st)
                             (log st ++ [LogTraceback])%list).

(** The truth value of an optional string: [None] and the empty string are
    false. *)
Definition truthy (s : option string) : option string :=
  match s with
  | Some p => if String.eqb p "" then None else Some p
  | None => None
  end.

(** [HAS_GMAIL_CREDENTIALS] (lines 48-58): both variables are set and not
    empty. *)
Definition has_gmail_credentials (address password : option string) : bool :=
  match truthy address, truthy password with
  | Some _, Some _ => true
  | _, _ => false
  end.

(** [__init__] *)
Definition init (address password : option string) : State :=
  let sim := negb (has_gmail_credentials address password) in
  mkState address password sim []
    [Log INFO ("Gmail tools initialized (simulation mode: "
               ++ (if sim then "True" else "False") ++ ")")].

Section Environment.

(** The file system: [os.path.exists], [os.path.isabs], [os.path.getsize]
    and the reading of a whole file (each of the last two may raise),
    [os.path.basename], [os.path.join], the directory of the script. *)
Variable path_exists : string -> bool.
Variable isabs : string -> bool.
Variable getsize : string -> string + nat.
Variable read_file : string -> string + string.
Variable basename : string -> string.
Variable os_path_join : string -> string -> string.
Variable assignment_path : string.

(** [mimetypes.guess_type]: the content type and the encoding. *)
Variable guess_type : string -> option string * option string.

(** [data.decode('utf-8')]; [inl] is the text of the [UnicodeDecodeError]. *)
Variable decode_utf8 : string -> string + string.

(** The mail server: whether an action raises after the actions done. *)
Variable smtp_raises : list SmtpAction -> SmtpAction -> option string.

Definition smtp_do (a : SmtpAction) : M unit :=
  fun st =>
    match smtp_raises (smtp st) a with
    | Some msg => (inl msg, st)
    | None => (inr tt, mkState (gmail_address st) (gmail_app_password st)
                               (simulation_mode st) (smtp st ++ [a])%list (log st))
    end.

(** The content type an attachment is sent with (lines 461-463). *)
Definition content_type_of (path : string) : string :=
  match guess_type path with
  | (Some content_type, None) => content_type
  | _ => "application/octet-stream"
  end.

(** The block of lines 452-487 for an attachment path that is not empty:
    [inl text] when [send_email] returns [text] at once, [inr part] when the
    part was attached. *)
Definition attach (attachment_path : string) : M (string + Part) :=
  if negb (path_exists attachment_path) then
    let error_msg := "Attachment file not found: " ++ attachment_path in
    logger ERROR error_msg ;;
    ret (inl error_msg)
  else
    logger INFO ("Adding attachment: " ++ attachment_path) ;;
    match split_once "/" (content_type_of attachment_path) with
    | None => raise "not enough values to unpack (expected 2, got 1)"
    | Some (main_type, sub_type) =>
        match read_file attachment_path with
        | inl e =>
            let error_msg := "Error reading attachment file: " ++ e in
            logger ERROR error_msg ;;
            ret (inl error_msg)
        | inr attachment_data =>
            attachment <-
              (if String.eqb main_type "text" then
                 match decode_utf8 attachment_data with
                 | inr text => ret (TextPart sub_type text (basename attachment_path))
                 | inl e => raise e
                 end
               else if String.eqb main_type "image" then
                 ret (ImagePart sub_type attachment_data (basename attachment_path))
               else
                 ret (ApplicationPart sub_type attachment_data
                                      (basename attachment_path))) ;;
            logger INFO ("Successfully attached file: " ++ basename attachment_path) ;;
            ret (inr attachment)
        end
    end.

(** [send_email] (lines 431-505) *)
Definition send_email (to_address subject body : string)
           (attachment_path : option string) : M string :=
  try_except
    (st <- get ;;
     if simulation_mode st then
       logger INFO ("SIMULATION: Sending email to " ++ to_address
                    ++ " with subject: " ++ subject) ;;
       match truthy attachment_path with
       | Some path => logger INFO ("SIMULATION: Would attach: " ++ path)
       | None => ret tt
       end ;;
       ret ("SIMULATION: Email sent to " ++ to_address ++ " with subject: " ++ subject)
     else
       attached <-
         match truthy attachment_path with
         | Some path =>
             r <- attach path ;;
             ret (match r with
                  | inl text => inl text
                  | inr part => inr (Some part)
                  end)
         | None => ret (inr None)
         end ;;
       match attached with
       | inl text => ret text
       | inr attachment =>
           let message := mkMessage (gmail_address st) to_address subject body
                                    attachment in
           logger INFO "Connecting to Gmail SMTP server..." ;;
           smtp_do (Connect "smtp.gmail.com" 465) ;;
           smtp_do (Login (gmail_address st) (gmail_app_password st)) ;;
           smtp_do (SendMessage message) ;;
           logger INFO ("Email sent successfully to " ++ to_address) ;;
           let result_text := "Email sent to " ++ to_address ++ " with subject: "
                              ++ subject in
           ret (match truthy attachment_path with
                | Some path => result_text ++ " and attachment: " ++ basename path
                | None => result_text
                end)
       end)
    (fun e =>
       let error_msg := "Error sending email: " ++ e in
       logger ERROR error_msg ;;
       log_traceback ;;
       ret error_msg).

(** [check_file_exists] (lines 507-529) *)
Definition check_file_exists (file_path : string) : M string :=
  try_except
    (let full_path := if negb (isabs file_path)
                      then os_path_join assignment_path file_path
                      else file_path in
     if path_exists full_path then
       match getsize full_path with
       | inl e => raise e
       | inr file_size =>
           let file_info := "File exists: " ++ full_path ++ nl ++ "Size: "
                            ++ str_of_nat file_size ++ " bytes" in
           logger INFO file_info ;;
           ret file_info
       end
     else
       let error_msg := "File does not exist: " ++ full_path in
       logger WARNING error_msg ;;
       ret error_msg)
    (fun e =>
       let error_msg := "Error checking file: " ++ e in
       logger ERROR error_msg ;;
       ret error_msg).

(** [email_image] (lines 531-554) *)
Definition email_image (to_address subject body image_filename : string)
  : M string :=
  try_except
    (let full_image_path := os_path_join assignment_path image_filename in
     if negb (path_exists full_image_path) then
       let error_msg := "Cannot send image email. File not found: "
                        ++ full_image_path in
       logger ERROR error_msg ;;
       ret error_msg
     else
       logger INFO ("Sending image email to " ++ to_address ++ " with subject: "
                    ++ subject) ;;
       logger INFO ("Attaching file: " ++ full_image_path) ;;
       result <- send_email to_address subject body (Some full_image_path) ;;
       ret result)
    (fun e =>
       let error_msg := "Error sending image email: " ++ e in
       logger ERROR error_msg ;;
       log_traceback ;;
       ret error_msg).

(** *** Properties of the mail tools *)

Definition returns {A : Type} (m : M A) : Prop :=
  forall st, exists v st', m st = (inr v, st').

Lemma mail_returns_try_except {A : Type} (body : M A) (handler : string -> M A) :
  (forall e, returns (handler e)) -> returns (try_except body handler).
Proof.
  intros Hh st. unfold try_except.
  destruct (body st) as [[e | v] st1].
  - apply Hh.
  - exists v, st1. reflexivity.
Qed.

(** X14. None of the methods of [GmailTools] lets an exception out: whatever
    the file system and the mail server do, [send_email], [check_file_exists]
    and [email_image] return a text. *)
Theorem mail_methods_return_text (to_address subject body file_path : string)
        (attachment_path : option string) :
  returns (send_email to_address subject body attachment_path)
  /\ returns (check_file_exists file_path)
  /\ returns (email_image to_address subject body file_path).
Proof.
  split; [| split]; apply mail_returns_try_except; intros e st; cbv zeta;
    unfold bind, logger, log_traceback, ret; do 2 eexists; reflexivity.
Qed.



Ltac mail_fields :=
  cbn [gmail_address gmail_app_password simulation_mode smtp log fst snd negb].



(** X16. Without both Gmail credentials the object is created in simulation
    mode, and [send_email] then returns its text marked SIMULATION without
    reading any file and without any action on the mail server, whatever the
    attachment path. *)
Theorem no_credentials_no_mail (address password : option string)
        (to_address subject body : string) (attachment_path : option string) :
  has_gmail_credentials address password = false ->
  let r := send_email to_address subject body attachment_path
                      (init address password) in
  fst r = inr ("SIMULATION: Email sent to " ++ to_address ++ " with subject: "
               ++ subject)
  /\ smtp (snd r) = [].
Proof.
  intros Hcred. cbv zeta. unfold init. rewrite Hcred.
  unfold send_email, try_except, bind, get, logger, ret. mail_fields.
  destruct (truthy attachment_path); split; reflexivity.
Qed.

(** X17. In real mode an attachment that cannot be attached stops
    [send_email] before the mail server is contacted: a path that does not
    exist gives "Attachment file not found: <path>", and a file that exists
    but cannot be read gives "Error reading attachment file: <error>". *)
Theorem unusable_attachment_sends_nothing (st : State)
        (to_address subject body path : string) (attachment_path : option string) :
  simulation_mode st = false ->
  truthy attachment_path = Some path ->
  let r := send_email to_address subject body attachment_path st in
  (path_exists path = false ->
   fst r = inr ("Attachment file not found: " ++ path) /\ smtp (snd r) = smtp st)
  /\ (forall e main_type sub_type,
        path_exists path = true ->
        split_once "/" (content_type_of path) = Some (main_type, sub_type) ->
        read_file path = inl e ->
        fst r = inr ("Error reading attachment file: " ++ e)
        /\ smtp (snd r) = smtp st).
Proof.
  intros Hsim Hpath. destruct st as [address password sim actions l].
  simpl in Hsim. subst sim. cbv zeta.
  unfold send_email, attach, try_except, bind, get, smtp_do, logger,
    log_traceback, ret, raise.
  mail_fields. rewrite Hpath. split.
  - intros Hex. rewrite Hex. mail_fields. split; reflexivity.
  - intros e main_type sub_type Hex Hct Hread. rewrite Hex, Hct, Hread.
    mail_fields. split; reflexivity.
Qed.

(** The part [send_email] makes of a file's data (lines 474-486). *)
Definition part_of (main_type sub_type data filename : string) : Part :=
  if String.eqb main_type "image" then ImagePart sub_type data filename
  else ApplicationPart sub_type data filename.

(** X18. In real mode, with a mail server that raises nothing, a readable
    attachment whose content type is not a text type goes out in the one
    message sent: as an image part when the main type is image, as an
    application part otherwise (this is the case of a type that cannot be
    guessed and of an encoded file, sent as application/octet-stream), with
    the guessed subtype, the data of the file and its base name. *)
Theorem attachment_part_sent (st : State) (to_address subject body path : string)
        (attachment_path : option string) (main_type sub_type data : string) :
  simulation_mode st = false ->
  (forall t a, smtp_raises t a = None) ->
  truthy attachment_path = Some path ->
  path_exists path = true ->
  split_once "/" (content_type_of path) = Some (main_type, sub_type) ->
  main_type <> "text" ->
  read_file path = inr data ->
  let r := send_email to_address subject body attachment_path st in
  fst r = inr (("Email sent to " ++ to_address ++ " with subject: " ++ subject)
               ++ " and attachment: " ++ basename path)
  /\ smtp (snd r)
     = (smtp st
        ++ [Connect "smtp.gmail.com" 465;
            Login (gmail_address st) (gmail_app_password st);
            SendMessage
              (mkMessage (gmail_address st) to_address subject body
                 (Some (part_of main_type sub_type data (basename path))))])%list.
Proof.
  intros Hsim Hok Hpath Hex Hct Hmain Hread.
  destruct st as [address password sim actions l].
  simpl in Hsim. subst sim. cbv zeta.
  unfold send_email, attach, part_of, try_except, bind, get, smtp_do, logger,
    log_traceback, ret, raise.
  mail_fields. rewrite Hpath, Hex, Hct, Hread. mail_fields.
  destruct (String.eqb main_type "text") eqn:Ht.
  { apply String.eqb_eq in Ht. contradiction. }
  destruct (String.eqb main_type "image"); mail_fields;
    repeat (rewrite Hok; mail_fields);
    (split; [reflexivity | repeat rewrite <- app_assoc; reflexivity]).
Qed.

Definition logged (records : list LogRecord) (st : State) : State :=
  mkState (gmail_address st) (gmail_app_password st) (simulation_mode st)
          (smtp st) (log st ++ records)%list.

Lemma send_email_returns (to_address subject body : string)
      (attachment_path : option string) :
  returns (send_email to_address subject body attachment_path).
Proof.
  apply mail_returns_try_except. intros e st. cbv zeta.
  unfold bind, logger, log_traceback, ret. do 2 eexists. reflexivity.
Qed.

(** X19. [email_image] is [send_email] on the file of that name in the
    directory of the script, after a test that the file exists, made in
    simulation mode as well: a missing file gives "Cannot send image email.
    File not found: <full path>" and nothing else happens; otherwise the
    result and the effects are those of [send_email] with the full path as
    attachment. *)
Theorem email_image_delegates (st : State)
        (to_address subject body image_filename : string) :
  let full_image_path := os_path_join assignment_path image_filename in
  email_image to_address subject body image_filename st
  = if path_exists full_image_path then
      send_email to_address subject body (Some full_image_path)
        (logged [Log INFO ("Sending image email to " ++ to_address
                           ++ " with subject: " ++ subject);
                 Log INFO ("Attaching file: " ++ full_image_path)] st)
    else
      (inr ("Cannot send image email. File not found: " ++ full_image_path),
       logged [Log ERROR ("Cannot send image email. File not found: "
                          ++ full_image_path)] st).
Proof.
  cbv zeta. unfold email_image, try_except at 1.
  destruct (path_exists (os_path_join assignment_path image_filename)); simpl.
  - unfold bind at 1. unfold logger at 1. unfold bind at 1. unfold logger at 1.
    unfold bind at 1.
    match goal with
    | |- context [send_email ?a ?b ?c ?d ?s] =>
        destruct (send_email_returns a b c d s) as (v & st' & Hv);
        replace (logged _ st) with s
          by (unfold logged; simpl; rewrite <- app_assoc; reflexivity)
    end.
    rewrite Hv. reflexivity.
  - reflexivity.
Qed.

(** X20. A relative name is not the same file for [check_file_exists] and for
    [send_email]: the first looks in the directory of the script, the second
    takes the name as it is. For a file that is in the directory of the
    script and not at the relative name, [check_file_exists] reports that
    the file exists while [send_email], in real mode, refuses the same name
    with "Attachment file not found" and sends nothing. *)
Theorem checked_file_not_found_by_send_email (st : State)
        (to_address subject body name : string) (size : nat) :
  simulation_mode st = false ->
  name <> "" ->
  isabs name = false ->
  path_exists (os_path_join assignment_path name) = true ->
  getsize (os_path_join assignment_path name) = inr size ->
  path_exists name = false ->
  fst (check_file_exists name st)
  = inr ("File exists: " ++ os_path_join assignment_path name ++ nl ++ "Size: "
         ++ str_of_nat size ++ " bytes")
  /\ fst (send_email to_address subject body (Some name) st)
     = inr ("Attachment file not found: " ++ name)
  /\ smtp (snd (send_email to_address subject body (Some name) st)) = smtp st.
Proof.
  intros Hsim Hne Habs Hin Hsize Hout.
  destruct st as [address password sim actions l]. simpl in Hsim. subst sim.
  assert (Ht : truthy (Some name) = Some name).
  { unfold truthy. destruct (String.eqb name "") eqn:He; [| reflexivity].
    apply String.eqb_eq in He. contradiction. }
  unfold check_file_exists, send_email, attach, try_except, bind, get, logger,
    ret.
  mail_fields. rewrite Habs, Ht. mail_fields. rewrite Hin, Hsize, Hout.
  mail_fields. repeat split.
Qed.

End Environment.

End GmailTools.

(** ** The plan-execute loop of [autonomous_paint_agent.py] *)

Module Agent.
Import PyStr Json.

(** The exceptions the loop can meet; all of them are [Exception]s. *)
Inductive exn : Type :=
| UnboundLocalError (var : string)
| KeyError (key : string)
| TypeError
| ValueError
| AttributeError
| TimeoutError
| OtherError (msg : string).

(** [j[k]]: a [KeyError] on a dict without the key, a [TypeError] on
    anything that is not a dict (the key is a string). *)
Definition getitem (j : json) (k : string) : exn + json :=
  match j with
  | JDict kv =>
      match dict_get k kv with
      | Some v => inr v
      | None => inl (KeyError k)
      end
  | _ => inl TypeError
  end.

(** [func_name in tool_names]: only a string can equal a tool's name. *)
Definition name_in (tool_names : list string) (func_name : json) : option string :=
  match func_name with
  | JStr n => if existsb (String.eqb n) tool_names then Some n else None
  | _ => None
  end.

(** What the agent prints and the pauses it takes, in order. *)
Inductive Event : Type :=
| PrintIteration (n : nat)
| PrintStartingLLM
| PrintLLMCompleted
| PrintLLMTimedOut
| PrintLLMError (msg : string)
| PrintResponse (text : string)
| PrintLine (line : string)
| PrintJSONError (function_info : string)
| PrintExecuting (func_name params : json)
| PrintCalling (func_name : string) (params : json)
| PrintToolResult (text : string)
| PrintToolError (func_name msg : string)
| PrintComplete (line : string)
| PrintQuery (query : string)
| PrintIterationError (n : nat) (e : exn)
| PrintMaxIterations
| Sleep (seconds : nat).

(** What the client's [generate_content] does under [wait_for]. *)
Inductive PlannerResult : Type :=
| Generated (text : option string)
| GenTimeout
| GenFails (msg : string).

Definition max_iterations : nat := 10.

(** The names the tool server of [paint_tools.py] registers ([@mcp.tool()]),
    which is what [session.list_tools()] reports for it. *)
Definition registered_tools : list string :=
  ["open_paint"; "draw_rectangle"; "add_text_in_paint"; "save_paint_file";
   "ascii_exp_sum"; "send_email_with_attachment"; "check_file_exists"].

Section Loop.

(** The state of the tool server and of what it drives. *)
Variable World : Type.

(** [json.loads]; [None] is [JSONDecodeError]. *)
Variable json_loads : string -> option json.

(** The planner: what the [n]-th call (from 0) answers to a prompt. *)
Variable client_generate : nat -> string -> PlannerResult.

(** [session.call_tool(name, arguments=params)] followed by the reading of
    the result's text: [inr text] when both succeed, [inl msg] with the
    exception's text when either raises. *)
Variable call_tool : string -> json -> World -> (string + string) * World.

(** The names [session.list_tools()] returned. *)
Variable tool_names : list string.

(** The instructions with the tool catalogue, fixed before the loop. *)
Variable system_prompt : string.

(** The globals [iteration] and [iteration_response], the locals [query]
    and [function_info_json] of [main] (the latter unbound until a payload
    decodes), and what the loop did: tool calls sent, output, world. *)
Record LoopState : Type := mkLoop {
  iteration : nat;
  iteration_response : list string;
  query : string;
  function_info_json : option json;
  calls : list (string * json);
  out : list Event;
  world : World
}.

Definition print (e : Event) (st : LoopState) : LoopState :=
  mkLoop (iteration st) (iteration_response st) (query st)
         (function_info_json st) (calls st) (out st ++ [e])%list (world st).

Definition bind_function_info_json (j : json) (st : LoopState) : LoopState :=
  mkLoop (iteration st) (iteration_response st) (query st)
         (Some j) (calls st) (out st) (world st).

Definition append_response (r : string) (st : LoopState) : LoopState :=
  mkLoop (iteration st) (iteration_response st ++ [r])%list (query st)
         (function_info_json st) (calls st) (out st) (world st).

Definition called (name : string) (params : json) (w : World) (st : LoopState)
  : LoopState :=
  mkLoop (iteration st) (iteration_response st) (query st)
         (function_info_json st) (calls st ++ [(name, params)])%list (out st) w.

Definition set_query (q : string) (st : LoopState) : LoopState :=
  mkLoop (iteration st) (iteration_response st) q
         (function_info_json st) (calls st) (out st) (world st).

Definition next_iteration (st : LoopState) : LoopState :=
  mkLoop (S (iteration st)) (iteration_response st) (query st)
         (function_info_json st) (calls st) (out st) (world st).

(** How the processing of one line ends: go on with the next line,
    [return] from [main] at a termination line, or raise. *)
Inductive LineOutcome : Type :=
| LineNext
| LineFinal (line : string)
| LineRaise (e : exn).

(** [if func_name in tool_names: ...] (lines 338-362): the call, the record
    appended to [iteration_response], the pause; an exception of the call
    becomes a record too. *)
Definition dispatch (func_name params : json) (st : LoopState)
  : LineOutcome * LoopState :=
  match name_in tool_names func_name with
  | None => (LineNext, st)
  | Some name =>
      let st := print (PrintCalling name params) st in
      let '(res, w) := call_tool name params (world st) in
      let st := called name params w st in
      match res with
      | inr result_text =>
          let st := append_response
                      ("In iteration " ++ str_of_nat (iteration st + 1) ++ ", "
                       ++ name ++ " returned: " ++ result_text) st in
          let st := print (PrintToolResult result_text) st in
          (LineNext, print (Sleep 2) st)
      | inl msg =>
          let st := print (PrintToolError name msg) st in
          (LineNext,
           append_response
             ("In iteration " ++ str_of_nat (iteration st + 1) ++ ", "
              ++ name ++ " failed: " ++ msg) st)
      end
  end.

(** The body of [for line in lines] (lines 314-367). *)
Definition process_line (raw : string) (st : LoopState) : LineOutcome * LoopState :=
  let line := strip raw in
  if String.eqb line "" then (LineNext, st)
  else if negb (startswith "FUNCTION_CALL:" line)
          && negb (startswith "FINAL_ANSWER:" line) then (LineNext, st)
  else if startswith "FUNCTION_CALL:" line then
    let st := print (PrintLine line) st in
    match split_once ":" line with
    | None => (LineRaise ValueError, st)
    | Some (_, function_info) =>
        let st := match json_loads function_info with
                  | Some j => bind_function_info_json j st
                  | None => print (PrintJSONError function_info) st
                  end in
        match function_info_json st with
        | None => (LineRaise (UnboundLocalError "function_info_json"), st)
        | Some j =>
            match getitem j "name" with
            | inl e => (LineRaise e, st)
            | inr func_name =>
                match getitem j "args" with
                | inl e => (LineRaise e, st)
                | inr params =>
                    dispatch func_name params
                             (print (PrintExecuting func_name params) st)
                end
            end
        end
    end
  else (LineFinal line, print (PrintComplete line) st).

Fixpoint process_lines (lines : list string) (st : LoopState)
  : LineOutcome * LoopState :=
  match lines with
  | [] => (LineNext, st)
  | l :: rest =>
      match process_line l st with
      | (LineNext, st') => process_lines rest st'
      | stop => stop
      end
  end.

(** [generate_with_timeout] (lines 48-71): the text of the answer, or the
    exception it lets through after printing. *)
Definition generate_with_timeout (prompt : string) (st : LoopState)
  : (exn + option string) * LoopState :=
  let st := print PrintStartingLLM st in
  match client_generate (iteration st) prompt with
  | Generated text => (inr text, print PrintLLMCompleted st)
  | GenTimeout => (inl TimeoutError, print PrintLLMTimedOut st)
  | GenFails msg => (inl (OtherError msg), print (PrintLLMError msg) st)
  end.

Definition next_query (st : LoopState) : string :=
  "Previous steps and results:" ++ nl ++ join nl (iteration_response st)
  ++ nl ++ nl ++ "What should be the next step?".

(** How one pass through the body of the [while] ends. *)
Inductive RoundOutcome : Type :=
| RoundDone
| RoundFinal (line : string)
| RoundBreak (e : exn).

Definition break_on (e : exn) (st : LoopState) : RoundOutcome * LoopState :=
  (RoundBreak e, print (PrintIterationError (iteration st + 1) e) st).

(** The body of the [while] (lines 300-381). *)
Definition do_round (st : LoopState) : RoundOutcome * LoopState :=
  let st := print (PrintIteration (iteration st + 1)) st in
  let prompt := system_prompt ++ nl ++ nl ++ "Query: " ++ query st in
  match generate_with_timeout prompt st with
  | (inl e, st) => break_on e st
  | (inr None, st) => break_on AttributeError st
  | (inr (Some text), st) =>
      let response_text := strip text in
      let st := print (PrintResponse response_text) st in
      match process_lines (split (ascii_of_nat 10) response_text) st with
      | (LineNext, st) =>
          let st := set_query (next_query st) st in
          let st := print (PrintQuery (query st)) st in
          (RoundDone, next_iteration st)
      | (LineFinal line, st) => (RoundFinal line, st)
      | (LineRaise e, st) => break_on e st
      end
  end.

(** How the loop ends. *)
Inductive LoopOutcome : Type :=
| FinalAnswer (line : string)
| MaxIterationsReached
| StoppedOnError (e : exn)
| OutOfFuel.

(** [while iteration < max_iterations: ...] and the test after it
    (lines 299-385).  [fuel] bounds the number of rounds. *)
Fixpoint main_loop (fuel : nat) (st : LoopState) : LoopOutcome * LoopState :=
  if iteration st <? max_iterations then
    match fuel with
    | 0 => (OutOfFuel, st)
    | S fuel' =>
        match do_round st with
        | (RoundDone, st') => main_loop fuel' st'
        | (RoundFinal line, st') => (FinalAnswer line, st')
        | (RoundBreak e, st') =>
            if max_iterations <=? iteration st'
            then (MaxIterationsReached, print PrintMaxIterations st')
            else (StoppedOnError e, st')
        end
    end
  else
    (* the test after the loop, [iteration >= max_iterations], is the
       negation of the condition that just failed *)
    (MaxIterationsReached, print PrintMaxIterations st).

Definition run_loop (st : LoopState) : LoopOutcome * LoopState :=
  main_loop (max_iterations - iteration st) st.

(** What [main] finds around it. *)
Record Env : Type := mkEnv {
  GEMINI_API_KEY : option string;
  paint_tools_found : bool;
  session_error : option exn;
  user_input : string;
  recipient_input : string;
  GMAIL_ADDRESS : option string;
  initial_world : World
}.

Definition initial_query (env : Env) : string :=
  let input := if String.eqb (user_input env) "" then "Hello World"
               else user_input env in
  let recipient :=
    if String.eqb (recipient_input env) "" then
      match GMAIL_ADDRESS env with Some a => a | None => "" end
    else recipient_input env in
  "Calculate the ASCII exponential sum for " ++ dq ++ input ++ dq
  ++ ", visualize it in Paint, and email it to " ++ recipient ++ ".".

Definition initial_state (env : Env) : LoopState :=
  mkLoop 0 [] (initial_query env) None [] [] (initial_world env).

(** How the coroutine [main] ends: it returns (with the loop's result when
    the loop ran) or leaves through [sys.exit]. *)
Inductive MainResult : Type :=
| MainReturned (loop : option (LoopOutcome * LoopState))
| MainSysExit (code : Z).

Definition main (env : Env) : MainResult :=
  if negb (paint_tools_found env) then MainSysExit 1
  else match session_error env with
       | Some _ => MainReturned None
       | None => MainReturned (Some (run_loop (initial_state env)))
       end.

(** The script: the module-level test of the API key, then
    [asyncio.run(main())] under the handlers of lines 400-408.  The result
    is the exit code of the process. *)
Definition script (env : Env) : Z :=
  match GEMINI_API_KEY env with
  | None => 1%Z
  | Some key =>
      if String.eqb key "" then 1%Z
      else match main env with
           | MainSysExit code => code
           | MainReturned _ => 0%Z
           end
  end.

(** *** Properties of the loop *)

(** The classes of a response line, as [process_line] tells them apart. *)
Definition is_call (raw : string) : bool :=
  startswith "FUNCTION_CALL:" (strip raw).

Definition is_final (raw : string) : bool :=
  negb (is_call raw) && startswith "FINAL_ANSWER:" (strip raw).

(** The operation and the arguments of an invocation line whose payload
    decodes to an object with both keys. *)
Definition invocation (raw : string) : option (json * json) :=
  if is_call raw then
    match split_once ":" (strip raw) with
    | Some (_, function_info) =>
        match json_loads function_info with
        | Some j =>
            match getitem j "name", getitem j "args" with
            | inr func_name, inr params => Some (func_name, params)
            | _, _ => None
            end
        | None => None
        end
    | None => None
    end
  else None.

(** The tool call an invocation line leads to: none when the operation is
    not a registered tool. *)
Definition executed (raw : string) : list (string * json) :=
  match invocation raw with
  | Some (func_name, params) =>
      match name_in tool_names func_name with
      | Some name => [(name, params)]
      | None => []
      end
  | None => []
  end.

Ltac break_match :=
  match goal with
  | |- context [match ?x with _ => _ end] => destruct x eqn:?
  end.

Lemma startswith_empty (p : string) :
  p <> "" -> startswith p "" = false.
Proof. destruct p; [congruence | reflexivity]. Qed.

Lemma process_line_ignored (raw : string) (st : LoopState) :
  is_call raw = false -> is_final raw = false ->
  process_line raw st = (LineNext, st).
Proof.
  unfold is_final, is_call, process_line. intros Hc Hf. rewrite Hc in *.
  simpl in Hf. rewrite Hf. simpl. destruct (String.eqb _ _); reflexivity.
Qed.

Lemma process_line_final (raw : string) (st : LoopState) :
  is_final raw = true ->
  process_line raw st
  = (LineFinal (strip raw), print (PrintComplete (strip raw)) st).
Proof.
  unfold is_final, is_call, process_line. intros Hf.
  apply andb_true_iff in Hf. destruct Hf as [Hc Hf].
  apply negb_true_iff in Hc. rewrite Hc, Hf. simpl.
  destruct (String.eqb (strip raw) "") eqn:He; [| reflexivity].
  apply String.eqb_eq in He. rewrite He in Hf. discriminate.
Qed.

Lemma process_line_invocation (raw : string) (st : LoopState)
      (func_name params : json) :
  invocation raw = Some (func_name, params) ->
  exists j,
    process_line raw st
    = dispatch func_name params
        (print (PrintExecuting func_name params)
           (bind_function_info_json j (print (PrintLine (strip raw)) st))).
Proof.
  unfold invocation, is_call, process_line. intros H.
  destruct (startswith "FUNCTION_CALL:" (strip raw)) eqn:Hc; [| discriminate].
  destruct (String.eqb (strip raw) "") eqn:He.
  { apply String.eqb_eq in He. rewrite He in Hc. discriminate. }
  simpl.
  destruct (split_once ":" (strip raw)) as [[before function_info] |];
    [| discriminate].
  destruct (json_loads function_info) as [j |]; [| discriminate].
  exists j. simpl.
  destruct (getitem j "name") as [e | n]; [discriminate |].
  destruct (getitem j "args") as [e | a]; [discriminate |].
  injection H as <- <-. reflexivity.
Qed.

Lemma dispatch_unregistered (func_name params : json) (st : LoopState) :
  name_in tool_names func_name = None ->
  dispatch func_name params st = (LineNext, st).
Proof. unfold dispatch. intros ->. reflexivity. Qed.

Lemma dispatch_registered (func_name params : json) (name : string)
      (st : LoopState) :
  name_in tool_names func_name = Some name ->
  exists record st',
    dispatch func_name params st = (LineNext, st')
    /\ iteration_response st' = (iteration_response st ++ [record])%list
    /\ calls st' = (calls st ++ [(name, params)])%list
    /\ iteration st' = iteration st
    /\ query st' = query st.
Proof.
  unfold dispatch. intros ->.
  destruct (call_tool name params (world (print (PrintCalling name params) st)))
    as [[msg | text] w]; do 2 eexists; repeat split.
Qed.

Lemma process_lines_app (a b : list string) (st : LoopState) :
  process_lines (a ++ b)%list st
  = match process_lines a st with
    | (LineNext, st') => process_lines b st'
    | stop => stop
    end.
Proof.
  revert st. induction a as [| l a IH]; intros st; simpl.
  - reflexivity.
  - destruct (process_line l st) as [[| line | e] st']; auto.
Qed.

(** No line changes the round counter. *)
Lemma process_line_iteration (raw : string) (st : LoopState) :
  iteration (snd (process_line raw st)) = iteration st.
Proof.
  unfold process_line, dispatch. repeat (break_match; simpl); reflexivity.
Qed.

Lemma process_lines_iteration (lines : list string) (st : LoopState) :
  iteration (snd (process_lines lines st)) = iteration st.
Proof.
  revert st. induction lines as [| l lines IH]; intros st; simpl.
  - reflexivity.
  - pose proof (process_line_iteration l st) as Hl.
    destruct (process_line l st) as [[| line | e] st']; simpl in *; auto.
    rewrite IH. exact Hl.
Qed.

(** A round adds one to the counter when it completes, and leaves it as
    it was when it ends the loop. *)
Lemma do_round_iteration (st st' : LoopState) (o : RoundOutcome) :
  do_round st = (o, st') ->
  iteration st' = match o with
                  | RoundDone => S (iteration st)
                  | _ => iteration st
                  end.
Proof.
  unfold do_round, generate_with_timeout, break_on. intros H.
  destruct (client_generate _ _) as [[text |] | | msg]; simpl in H;
    try (injection H as <- <-; reflexivity).
  match type of H with
  | context [process_lines ?l ?s] =>
      pose proof (process_lines_iteration l s) as Hi;
      destruct (process_lines l s) as [[| line | e] st1]
  end; simpl in Hi; injection H as <- <-; simpl; rewrite Hi; reflexivity.
Qed.

(** The lines of a response up to a termination line: none of them is a
    termination line, and each invocation line among them decodes to an
    operation and its arguments. *)
Definition well_formed_prefix (pre : list string) : Prop :=
  Forall (fun raw => is_final raw = false
                     /\ (is_call raw = true -> invocation raw <> None)) pre.

Lemma invocation_not_call (raw : string) :
  is_call raw = false -> invocation raw = None.
Proof. unfold invocation. intros ->. reflexivity. Qed.

Lemma process_lines_prefix (pre : list string) (st : LoopState) :
  well_formed_prefix pre ->
  exists st',
    process_lines pre st = (LineNext, st')
    /\ calls st' = (calls st ++ flat_map executed pre)%list
    /\ List.length (iteration_response st')
       = List.length (iteration_response st) + List.length (flat_map executed pre)
    /\ iteration st' = iteration st.
Proof.
  intros Hpre. revert st.
  induction Hpre as [| raw pre [Hnf Hwf] _ IH]; intros st.
  - exists st. simpl. rewrite app_nil_r. repeat split. lia.
  - simpl. unfold executed at 1 3.
    destruct (is_call raw) eqn:Hc.
    + destruct (invocation raw) as [[func_name params] |] eqn:Hi;
        [| exfalso; apply (Hwf eq_refl); reflexivity].
      destruct (process_line_invocation raw st func_name params Hi) as [j ->].
      destruct (name_in tool_names func_name) as [name |] eqn:Hn.
      * destruct (dispatch_registered func_name params name
                    (print (PrintExecuting func_name params)
                       (bind_function_info_json j
                          (print (PrintLine (strip raw)) st))) Hn)
          as (record & st1 & -> & Hr & Hcalls & Hit & _).
        destruct (IH st1) as (st' & -> & Hc' & Hr' & Hit').
        exists st'. split; [reflexivity |]. simpl in *.
        rewrite Hc', Hcalls, Hr', Hr, Hit', Hit, <- app_assoc, length_app.
        simpl. repeat split. lia.
      * rewrite dispatch_unregistered by exact Hn.
        destruct (IH (print (PrintExecuting func_name params)
                        (bind_function_info_json j
                           (print (PrintLine (strip raw)) st))))
          as (st' & -> & Hc' & Hr' & Hit').
        exists st'. simpl in *. repeat split; assumption.
    + rewrite (invocation_not_call raw Hc).
      rewrite process_line_ignored by assumption.
      destruct (IH st) as (st' & -> & Hc' & Hr' & Hit').
      exists st'. simpl. repeat split; assumption.
Qed.

Definition prompt_of (st : LoopState) : string :=
  system_prompt ++ nl ++ nl ++ "Query: " ++ query st.

Lemma do_round_generated (st : LoopState) (text : string) :
  client_generate (iteration st) (prompt_of st) = Generated (Some text) ->
  do_round st
  = let st1 := print (PrintResponse (strip text))
                 (print PrintLLMCompleted
                    (print PrintStartingLLM
                       (print (PrintIteration (iteration st + 1)) st))) in
    match process_lines (split (ascii_of_nat 10) (strip text)) st1 with
    | (LineNext, st2) =>
        let st3 := set_query (next_query st2) st2 in
        (RoundDone, next_iteration (print (PrintQuery (query st3)) st3))
    | (LineFinal line, st2) => (RoundFinal line, st2)
    | (LineRaise e, st2) => break_on e st2
    end.
Proof.
  intros Hgen. unfold do_round, generate_with_timeout.
  change (client_generate _ _)
    with (client_generate (iteration st) (prompt_of st)).
  rewrite Hgen. reflexivity.
Qed.

(** A round whose response has a termination line after a well-formed
    prefix: the prefix's calls are made in order, then [main] returns. *)
Lemma round_until_final (st : LoopState) (text : string)
      (pre post : list string) (fa : string) :
  client_generate (iteration st) (prompt_of st) = Generated (Some text) ->
  split (ascii_of_nat 10) (strip text) = (pre ++ fa :: post)%list ->
  well_formed_prefix pre ->
  is_final fa = true ->
  exists st',
    do_round st = (RoundFinal (strip fa), st')
    /\ calls st' = (calls st ++ flat_map executed pre)%list
    /\ List.length (iteration_response st')
       = List.length (iteration_response st) + List.length (flat_map executed pre)
    /\ iteration st' = iteration st.
Proof.
  intros Hgen Hsplit Hpre Hfa. rewrite (do_round_generated st text Hgen).
  cbv zeta. rewrite Hsplit.
  rewrite process_lines_app.
  match goal with
  | |- context [process_lines pre ?s] =>
      destruct (process_lines_prefix pre s Hpre) as (st1 & -> & Hc & Hr & Hit)
  end.
  cbn [process_lines]. rewrite process_line_final by exact Hfa.
  eexists. split; [reflexivity |]. simpl in *. repeat split; assumption.
Qed.

Lemma main_loop_unfold (fuel : nat) (st : LoopState) :
  main_loop fuel st
  = if iteration st <? max_iterations then
      match fuel with
      | 0 => (OutOfFuel, st)
      | S fuel' =>
          match do_round st with
          | (RoundDone, st') => main_loop fuel' st'
          | (RoundFinal line, st') => (FinalAnswer line, st')
          | (RoundBreak e, st') =>
              if max_iterations <=? iteration st'
              then (MaxIterationsReached, print PrintMaxIterations st')
              else (StoppedOnError e, st')
          end
      end
    else (MaxIterationsReached, print PrintMaxIterations st).
Proof. destruct fuel; reflexivity. Qed.

(** With the fuel [run_loop] gives it, the loop ends by itself; the counter
    never passes [max_iterations], and it is there at the end exactly when
    the loop reports that the maximum was reached. *)
Lemma main_loop_spec (fuel : nat) :
  forall (st fin : LoopState) (o : LoopOutcome),
    max_iterations - iteration st <= fuel ->
    iteration st <= max_iterations ->
    main_loop fuel st = (o, fin) ->
    o <> OutOfFuel
    /\ iteration st <= iteration fin <= max_iterations
    /\ (o = MaxIterationsReached <-> iteration fin = max_iterations).
Proof.
  induction fuel as [| fuel IH]; intros st fin o Hfuel Hle Hrun;
    rewrite main_loop_unfold in Hrun;
    destruct (Nat.ltb_spec (iteration st) max_iterations) as [Hlt | Hge].
  - lia.
  - injection Hrun as <- <-. simpl.
    repeat split; try discriminate; try lia.
  - destruct (do_round st) as [[| line | e] st1] eqn:Hround;
      apply do_round_iteration in Hround.
    + apply IH in Hrun; [| lia | lia].
      destruct Hrun as (Hof & Hb & Hiff). repeat split; try tauto; lia.
    + injection Hrun as <- <-.
      repeat split; try discriminate; try lia.
    + destruct (Nat.leb_spec max_iterations (iteration st1)); [lia |].
      injection Hrun as <- <-.
      repeat split; try discriminate; try lia.
  - injection Hrun as <- <-. simpl.
    repeat split; try discriminate; try lia.
Qed.

(** From the head of the loop to a later head of the loop. *)
Inductive reaches : LoopState -> LoopState -> Prop :=
| reaches_here (st : LoopState) : reaches st st
| reaches_round (st st1 st2 : LoopState) :
    iteration st < max_iterations ->
    do_round st = (RoundDone, st1) ->
    reaches st1 st2 ->
    reaches st st2.

Lemma reaches_iteration (st st' : LoopState) :
  reaches st st' ->
  iteration st <= max_iterations ->
  iteration st <= iteration st' <= max_iterations.
Proof.
  induction 1 as [st | st st1 st2 Hlt Hround _ IH]; intros Hle.
  - lia.
  - apply do_round_iteration in Hround. lia.
Qed.

(** C4. In every execution of the loop the round counter [iteration] never
    decreases and never passes [max_iterations]; a completed round adds
    exactly one to it (a round that ends the loop leaves it as it was);
    the loop ends by itself, and it ends with "Maximum iterations reached"
    exactly when the counter is at [max_iterations], which a termination
    line or an error met earlier excludes. *)
Theorem round_index_invariant (st : LoopState) :
  iteration st <= max_iterations ->
  (forall o st1, do_round st = (o, st1) ->
     iteration st1 = match o with
                     | RoundDone => iteration st + 1
                     | _ => iteration st
                     end)
  /\ (forall st1, reaches st st1 ->
        iteration st <= iteration st1 <= max_iterations)
  /\ (forall o fin, run_loop st = (o, fin) ->
        o <> OutOfFuel
        /\ iteration st <= iteration fin <= max_iterations
        /\ (o = MaxIterationsReached <-> iteration fin = max_iterations)).
Proof.
  intros Hle. split; [| split].
  - intros o st1 Hround. apply do_round_iteration in Hround.
    rewrite Hround. destruct o; lia.
  - intros st1 Hreach. apply reaches_iteration; assumption.
  - intros o fin Hrun. unfold run_loop in Hrun.
    eapply main_loop_spec; [| exact Hle | exact Hrun]. lia.
Qed.

(** C1, as the code has it. In a response where a termination line follows
    lines none of which is a termination line and whose invocation lines
    all decode to an operation with arguments, the invocations of those
    lines that name a registered tool are executed, in document order, each
    leaving one record in the history, and then the termination line ends
    the loop; whatever follows the termination line is not read: no
    invocation line after it is executed. *)
Theorem invocations_before_termination (st : LoopState) (text : string)
        (pre post : list string) (fa : string) :
  client_generate (iteration st) (prompt_of st) = Generated (Some text) ->
  split (ascii_of_nat 10) (strip text) = (pre ++ fa :: post)%list ->
  well_formed_prefix pre ->
  is_final fa = true ->
  exists st',
    do_round st = (RoundFinal (strip fa), st')
    /\ calls st' = (calls st ++ flat_map executed pre)%list
    /\ List.length (iteration_response st')
       = List.length (iteration_response st) + List.length (flat_map executed pre)
    /\ iteration st' = iteration st.
Proof. apply round_until_final. Qed.

(** C6, as the code has it. An invocation whose operation is not a
    registered tool is skipped: no tool is called, nothing is appended to
    the history, the state of the tools is as it was, and the loop goes on
    with the lines that follow. *)
Theorem unregistered_invocation_skipped (raw : string) (st : LoopState)
        (func_name params : json) :
  invocation raw = Some (func_name, params) ->
  name_in tool_names func_name = None ->
  exists st',
    process_line raw st = (LineNext, st')
    /\ iteration_response st' = iteration_response st
    /\ calls st' = calls st
    /\ world st' = world st
    /\ forall rest, process_lines (raw :: rest) st = process_lines rest st'.
Proof.
  intros Hi Hn.
  destruct (process_line_invocation raw st func_name params Hi) as [j Hj].
  rewrite dispatch_unregistered in Hj by exact Hn.
  eexists. split; [exact Hj |]. repeat split.
  intros rest. simpl. rewrite Hj. reflexivity.
Qed.

Lemma run_loop_round (st st' : LoopState) (o : RoundOutcome) :
  iteration st < max_iterations ->
  do_round st = (o, st') ->
  run_loop st
  = match o with
    | RoundDone => main_loop (max_iterations - S (iteration st)) st'
    | RoundFinal line => (FinalAnswer line, st')
    | RoundBreak e => (StoppedOnError e, st')
    end.
Proof.
  intros Hlt Hround. unfold run_loop. rewrite main_loop_unfold.
  destruct (Nat.ltb_spec (iteration st) max_iterations); [| lia].
  destruct (max_iterations - iteration st) as [| fuel] eqn:Hf; [lia |].
  rewrite Hround. pose proof (do_round_iteration _ _ _ Hround) as Hi.
  destruct o.
  - f_equal. lia.
  - reflexivity.
  - destruct (Nat.leb_spec max_iterations (iteration st')); [lia | reflexivity].
Qed.

(** A planner call that fails ends the loop at once. *)
Lemma round_planner_timeout (st : LoopState) :
  client_generate (iteration st) (prompt_of st) = GenTimeout ->
  exists st',
    do_round st = (RoundBreak TimeoutError, st')
    /\ iteration_response st' = iteration_response st
    /\ calls st' = calls st
    /\ world st' = world st.
Proof.
  intros Hgen. unfold do_round, generate_with_timeout, break_on.
  change (client_generate _ _)
    with (client_generate (iteration st) (prompt_of st)).
  rewrite Hgen. eexists. split; [reflexivity |]. repeat split.
Qed.

(** C8, as the code has it. When the planner call of round 1 times out the
    loop ends at once, on the [TimeoutError], with no record in the history
    and no tool called; [main] catches the exception and returns, and the
    exit code of the process is 0. *)
Theorem planner_timeout_round_one (env : Env) (key : string) :
  GEMINI_API_KEY env = Some key -> key <> "" ->
  paint_tools_found env = true ->
  session_error env = None ->
  client_generate 0 (prompt_of (initial_state env)) = GenTimeout ->
  exists st',
    run_loop (initial_state env) = (StoppedOnError TimeoutError, st')
    /\ iteration st' = 0
    /\ iteration_response st' = []
    /\ calls st' = []
    /\ main env = MainReturned (Some (StoppedOnError TimeoutError, st'))
    /\ script env = 0%Z.
Proof.
  intros Hkey Hne Hfound Hsession Hgen.
  destruct (round_planner_timeout (initial_state env) Hgen)
    as (st' & Hround & Hr & Hc & _).
  assert (Hlt : iteration (initial_state env) < max_iterations)
    by (unfold max_iterations; simpl; lia).
  pose proof (run_loop_round _ _ _ Hlt Hround) as Hrun. simpl in Hrun.
  pose proof (do_round_iteration _ _ _ Hround) as Hi.
  assert (Hmain : main env = MainReturned (Some (StoppedOnError TimeoutError, st'))).
  { unfold main. rewrite Hfound, Hsession, Hrun. reflexivity. }
  exists st'. repeat split; try assumption.
  unfold script. rewrite Hkey, Hmain.
  destruct (String.eqb key "") eqn:He; [| reflexivity].
  apply String.eqb_eq in He. contradiction.
Qed.

Lemma process_lines_ignored (lines : list string) (st : LoopState) :
  Forall (fun raw => is_call raw = false /\ is_final raw = false) lines ->
  process_lines lines st = (LineNext, st).
Proof.
  induction 1 as [| raw lines [Hc Hf] _ IH]; simpl.
  - reflexivity.
  - rewrite process_line_ignored by assumption. exact IH.
Qed.

(** X2. A response of narrative text only (no line is an invocation line or a
    termination line) completes the round: the counter advances by one, and
    no record is appended and no tool called. *)
Theorem narrative_response_round (st : LoopState) (text : string) :
  client_generate (iteration st) (prompt_of st) = Generated (Some text) ->
  Forall (fun raw => is_call raw = false /\ is_final raw = false)
         (split (ascii_of_nat 10) (strip text)) ->
  exists st',
    do_round st = (RoundDone, st')
    /\ iteration st' = iteration st + 1
    /\ iteration_response st' = iteration_response st
    /\ calls st' = calls st
    /\ world st' = world st.
Proof.
  intros Hgen Hlines. rewrite (do_round_generated st text Hgen). cbv zeta.
  rewrite process_lines_ignored by exact Hlines.
  eexists. split; [reflexivity |]. simpl. repeat split. lia.
Qed.

Lemma process_line_history (raw : string) (st : LoopState) :
  exists added,
    iteration_response (snd (process_line raw st))
    = (iteration_response st ++ added)%list.
Proof.
  unfold process_line, dispatch.
  repeat (break_match; simpl);
    first [ exists []; rewrite app_nil_r; reflexivity
          | eexists; reflexivity ].
Qed.

Lemma process_lines_history (lines : list string) (st : LoopState) :
  exists added,
    iteration_response (snd (process_lines lines st))
    = (iteration_response st ++ added)%list.
Proof.
  revert st. induction lines as [| l lines IH]; intros st; simpl.
  - exists []. rewrite app_nil_r. reflexivity.
  - destruct (process_line_history l st) as [a Ha].
    destruct (process_line l st) as [[| line | e] st1]; simpl in Ha.
    + destruct (IH st1) as [b Hb]. exists (a ++ b)%list.
      rewrite Hb, Ha, app_assoc. reflexivity.
    + exists a. exact Ha.
    + exists a. exact Ha.
Qed.

Lemma do_round_history (st : LoopState) :
  exists added,
    iteration_response (snd (do_round st)) = (iteration_response st ++ added)%list.
Proof.
  unfold do_round, generate_with_timeout, break_on.
  destruct (client_generate _ _) as [[text |] | | msg]; simpl;
    try (exists []; rewrite app_nil_r; reflexivity).
  match goal with
  | |- context [process_lines ?l ?s] =>
      destruct (process_lines_history l s) as [a Ha];
      destruct (process_lines l s) as [[| line | e] st1]
  end; simpl in *; exists a; exact Ha.
Qed.

Lemma main_loop_history (fuel : nat) (st : LoopState) :
  exists added,
    iteration_response (snd (main_loop fuel st))
    = (iteration_response st ++ added)%list.
Proof.
  revert st. induction fuel as [| fuel IH]; intros st;
    rewrite main_loop_unfold; destruct (iteration st <? max_iterations);
    try (exists []; rewrite app_nil_r; reflexivity).
  destruct (do_round_history st) as [a Ha].
  destruct (do_round st) as [[| line | e] st1]; simpl in Ha.
  - destruct (IH st1) as [b Hb]. exists (a ++ b)%list.
    rewrite Hb, Ha, app_assoc. reflexivity.
  - exists a. exact Ha.
  - destruct (max_iterations <=? iteration st1); exists a; exact Ha.
Qed.

(** X3. The history is append-only: a round, and the whole loop, leave in
    [iteration_response] what was there, in place, followed by what they
    added. *)
Theorem history_append_only (st : LoopState) :
  (exists added,
     iteration_response (snd (do_round st))
     = (iteration_response st ++ added)%list)
  /\ (exists added,
        iteration_response (snd (run_loop st))
        = (iteration_response st ++ added)%list).
Proof.
  split; [apply do_round_history | apply main_loop_history].
Qed.

(** X4. A call that raises is recorded and does not stop the loop: the text of
    the exception goes into the history as a failure of the tool, and the
    processing goes on with the next line. *)
Theorem tool_failure_recorded (func_name params : json) (name msg : string)
        (w : World) (st : LoopState) :
  name_in tool_names func_name = Some name ->
  call_tool name params (world st) = (inl msg, w) ->
  exists st',
    dispatch func_name params st = (LineNext, st')
    /\ iteration_response st'
       = (iteration_response st
          ++ [("In iteration " ++ str_of_nat (iteration st + 1) ++ ", " ++ name
               ++ " failed: " ++ msg)%string])%list
    /\ calls st' = (calls st ++ [(name, params)])%list
    /\ world st' = w.
Proof.
  intros Hn Hcall. unfold dispatch. rewrite Hn.
  change (world (print (PrintCalling name params) st)) with (world st).
  rewrite Hcall. eexists. split; [reflexivity |]. repeat split.
Qed.

(** *** More properties of the loop *)

(** X21. The exit code of the process depends on the configuration only: it
    is 1 when [GEMINI_API_KEY] is missing or empty or when [paint_tools.py]
    is not found, and 0 otherwise, whatever the planner and the tools do
    (a connection that fails, a planner that times out, a loop that reaches
    the maximum of iterations all end with 0). *)
Theorem script_exit_code (env : Env) :
  script env
  = if match GEMINI_API_KEY env with
       | Some key => negb (String.eqb key "")
       | None => false
       end && paint_tools_found env
    then 0%Z else 1%Z.
Proof.
  unfold script, main.
  destruct (GEMINI_API_KEY env) as [key |]; [| reflexivity].
  destruct (String.eqb key ""); [reflexivity |].
  destruct (paint_tools_found env); [| reflexivity].
  destruct (session_error env); reflexivity.
Qed.

(** The records and the calls that [st'] has more than [st] are as many. *)
Definition balanced (st st' : LoopState) : Prop :=
  List.length (iteration_response st') + List.length (calls st)
  = List.length (iteration_response st) + List.length (calls st').

Lemma balanced_trans (a b c : LoopState) :
  balanced a b -> balanced b c -> balanced a c.
Proof. unfold balanced. lia. Qed.

Lemma process_line_balanced (raw : string) (st : LoopState) :
  balanced st (snd (process_line raw st)).
Proof.
  unfold balanced, process_line, dispatch.
  repeat (break_match; simpl); rewrite ?length_app; simpl; lia.
Qed.

Lemma process_lines_balanced (lines : list string) (st : LoopState) :
  balanced st (snd (process_lines lines st)).
Proof.
  revert st. induction lines as [| l lines IH]; intros st; simpl.
  - unfold balanced. lia.
  - pose proof (process_line_balanced l st) as Hl.
    destruct (process_line l st) as [[| line | e] st1]; simpl in *; auto.
    eapply balanced_trans; [exact Hl | apply IH].
Qed.

Lemma do_round_balanced (st : LoopState) : balanced st (snd (do_round st)).
Proof.
  unfold do_round, generate_with_timeout, break_on.
  destruct (client_generate _ _) as [[text |] | | msg]; simpl;
    try (unfold balanced; simpl; lia).
  match goal with
  | |- context [process_lines ?l ?s] =>
      pose proof (process_lines_balanced l s) as Hb;
      destruct (process_lines l s) as [[| line | e] st1]
  end; unfold balanced in *; simpl in *; lia.
Qed.

Lemma main_loop_balanced (fuel : nat) (st : LoopState) :
  balanced st (snd (main_loop fuel st)).
Proof.
  revert st. induction fuel as [| fuel IH]; intros st;
    rewrite main_loop_unfold; destruct (iteration st <? max_iterations);
    try (unfold balanced; simpl; lia).
  pose proof (do_round_balanced st) as Hr.
  destruct (do_round st) as [[| line | e] st1]; simpl in Hr.
  - eapply balanced_trans; [exact Hr | apply IH].
  - exact Hr.
  - destruct (max_iterations <=? iteration st1); exact Hr.
Qed.

(** X22. The history holds exactly one record for each tool call made: over
    a round, and over the whole loop, as many records are appended as calls
    are sent to the session (a call that raises leaves its record too, and
    nothing else writes to the history). *)
Theorem one_record_per_call (st : LoopState) :
  balanced st (snd (do_round st)) /\ balanced st (snd (run_loop st)).
Proof.
  split; [apply do_round_balanced | apply main_loop_balanced].
Qed.

(** A record of round [n] (counted from 0). *)
Definition tagged (n : nat) (record : string) : Prop :=
  exists rest, record = "In iteration " ++ str_of_nat (n + 1) ++ ", " ++ rest.

Lemma process_line_tagged (raw : string) (st : LoopState) :
  exists added,
    iteration_response (snd (process_line raw st))
    = (iteration_response st ++ added)%list
    /\ Forall (tagged (iteration st)) added.
Proof.
  unfold process_line, dispatch.
  repeat (break_match; simpl);
    first [ exists []; split; [rewrite app_nil_r; reflexivity | constructor]
          | eexists; split;
            [ reflexivity
            | constructor; [eexists; reflexivity | constructor] ] ].
Qed.

Lemma process_lines_tagged (lines : list string) (st : LoopState) :
  exists added,
    iteration_response (snd (process_lines lines st))
    = (iteration_response st ++ added)%list
    /\ Forall (tagged (iteration st)) added.
Proof.
  revert st. induction lines as [| l lines IH]; intros st; simpl.
  - exists []. split; [rewrite app_nil_r; reflexivity | constructor].
  - destruct (process_line_tagged l st) as (a & Ha & Hta).
    pose proof (process_line_iteration l st) as Hi.
    destruct (process_line l st) as [[| line | e] st1]; simpl in Ha, Hi.
    + destruct (IH st1) as (b & Hb & Htb). exists (a ++ b)%list. split.
      * rewrite Hb, Ha, app_assoc. reflexivity.
      * apply Forall_app. split; [exact Hta |]. rewrite <- Hi. exact Htb.
    + exists a. split; assumption.
    + exists a. split; assumption.
Qed.

(** X23. Every record a round appends starts with "In iteration N, " where N
    is the number of that round, counted from 1. *)
Theorem round_records_tagged (st : LoopState) :
  exists added,
    iteration_response (snd (do_round st)) = (iteration_response st ++ added)%list
    /\ Forall (tagged (iteration st)) added.
Proof.
  unfold do_round, generate_with_timeout, break_on.
  destruct (client_generate _ _) as [[text |] | | msg]; simpl;
    try (exists []; split; [rewrite app_nil_r; reflexivity | constructor]).
  match goal with
  | |- context [process_lines ?l ?s] =>
      destruct (process_lines_tagged l s) as (a & Ha & Hta);
      destruct (process_lines l s) as [[| line | e] st1]
  end; simpl in *; exists a; split; assumption.
Qed.

Lemma name_in_registered (func_name : json) (name : string) :
  name_in tool_names func_name = Some name -> In name tool_names.
Proof.
  unfold name_in. destruct func_name; try discriminate.
  destruct (existsb (String.eqb s) tool_names) eqn:He; [| discriminate].
  intros H. injection H as <-. apply existsb_exists in He.
  destruct He as (x & Hx & Heq). apply String.eqb_eq in Heq. subst x. exact Hx.
Qed.

(** The calls [st'] has more than [st] all go to registered tools. *)
Definition registered_calls (st st' : LoopState) : Prop :=
  exists added,
    calls st' = (calls st ++ added)%list
    /\ Forall (fun call => In (fst call) tool_names) added.

Lemma registered_calls_refl (st st' : LoopState) :
  calls st' = calls st -> registered_calls st st'.
Proof.
  intros H. exists []. split; [rewrite app_nil_r; exact H | constructor].
Qed.

Lemma registered_calls_trans (a b c : LoopState) :
  registered_calls a b -> registered_calls b c -> registered_calls a c.
Proof.
  intros (x & Hx & Fx) (y & Hy & Fy). exists (x ++ y)%list. split.
  - rewrite Hy, Hx, app_assoc. reflexivity.
  - apply Forall_app. split; assumption.
Qed.

Lemma dispatch_registered_calls (func_name params : json) (st : LoopState) :
  registered_calls st (snd (dispatch func_name params st)).
Proof.
  unfold dispatch.
  destruct (name_in tool_names func_name) as [name |] eqn:Hn.
  - apply name_in_registered in Hn.
    destruct (call_tool name params _) as [[msg | text] w]; simpl;
      (exists [(name, params)]; split;
       [reflexivity | constructor; [exact Hn | constructor]]).
  - apply registered_calls_refl. reflexivity.
Qed.

Lemma process_line_registered_calls (raw : string) (st : LoopState) :
  registered_calls st (snd (process_line raw st)).
Proof.
  unfold process_line.
  repeat (break_match; cbn [snd]);
    try (apply registered_calls_refl; reflexivity);
    match goal with
    | |- registered_calls _ (snd (dispatch ?f ?p ?s)) =>
        exact (dispatch_registered_calls f p s)
    end.
Qed.

Lemma process_lines_registered_calls (lines : list string) (st : LoopState) :
  registered_calls st (snd (process_lines lines st)).
Proof.
  revert st. induction lines as [| l lines IH]; intros st; simpl.
  - apply registered_calls_refl. reflexivity.
  - pose proof (process_line_registered_calls l st) as Hl.
    destruct (process_line l st) as [[| line | e] st1]; simpl in *; auto.
    eapply registered_calls_trans; [exact Hl | apply IH].
Qed.

Lemma do_round_registered_calls (st : LoopState) :
  registered_calls st (snd (do_round st)).
Proof.
  unfold do_round, generate_with_timeout, break_on.
  destruct (client_generate _ _) as [[text |] | | msg]; simpl;
    try (apply registered_calls_refl; reflexivity).
  match goal with
  | |- context [process_lines ?l ?s] =>
      pose proof (process_lines_registered_calls l s) as Hb;
      destruct (process_lines l s) as [[| line | e] st1]
  end; simpl in *; exact Hb.
Qed.

Lemma main_loop_registered_calls (fuel : nat) (st : LoopState) :
  registered_calls st (snd (main_loop fuel st)).
Proof.
  revert st. induction fuel as [| fuel IH]; intros st;
    rewrite main_loop_unfold; destruct (iteration st <? max_iterations);
    try (apply registered_calls_refl; reflexivity).
  pose proof (do_round_registered_calls st) as Hr.
  destruct (do_round st) as [[| line | e] st1]; simpl in Hr.
  - eapply registered_calls_trans; [exact Hr | apply IH].
  - exact Hr.
  - destruct (max_iterations <=? iteration st1); exact Hr.
Qed.

(** X24. The loop only ever calls tools of the registry: every call sent to
    the session, in a round and over the whole loop, carries a name that
    [session.list_tools()] returned, whatever the planner writes. *)
Theorem only_registered_tools_called (st : LoopState) :
  registered_calls st (snd (do_round st))
  /\ registered_calls st (snd (run_loop st)).
Proof.
  split; [apply do_round_registered_calls | apply main_loop_registered_calls].
Qed.

(** X25. A planner call that fails in any round (a timeout, another
    exception, or an answer without text) ends the loop in that round: the
    history gathered so far is kept as it is, no tool is called, the counter
    stays, and no later round runs. *)
Theorem planner_failure_stops_loop (st : LoopState) :
  iteration st < max_iterations ->
  (forall text,
     client_generate (iteration st) (prompt_of st) <> Generated (Some text)) ->
  exists e st',
    run_loop st = (StoppedOnError e, st')
    /\ iteration_response st' = iteration_response st
    /\ calls st' = calls st
    /\ world st' = world st
    /\ iteration st' = iteration st.
Proof.
  intros Hlt Hfail.
  assert (Hround : exists e st',
             do_round st = (RoundBreak e, st')
             /\ iteration_response st' = iteration_response st
             /\ calls st' = calls st /\ world st' = world st
             /\ iteration st' = iteration st).
  { unfold do_round, generate_with_timeout, break_on.
    change (client_generate _ _)
      with (client_generate (iteration st) (prompt_of st)).
    destruct (client_generate (iteration st) (prompt_of st))
      as [[text |] | | msg] eqn:Hgen.
    - exfalso. apply (Hfail text). reflexivity.
    - do 2 eexists. split; [reflexivity |]. repeat split.
    - do 2 eexists. split; [reflexivity |]. repeat split.
    - do 2 eexists. split; [reflexivity |]. repeat split. }
  destruct Hround as (e & st' & Hround & Hr & Hc & Hw & Hi).
  exists e, st'. rewrite (run_loop_round st st' (RoundBreak e) Hlt Hround).
  repeat split; assumption.
Qed.

(** X26. An invocation line whose payload decodes but is not an object with
    both keys "name" and "args" ends the processing of the response with the
    [KeyError] or [TypeError] of the failed subscript: no tool is called, no
    record is appended, and the lines that follow are not read. *)
Theorem incomplete_invocation_raises (raw before function_info : string)
        (j : json) (st : LoopState) :
  is_call raw = true ->
  split_once ":" (strip raw) = Some (before, function_info) ->
  json_loads function_info = Some j ->
  invocation raw = None ->
  exists e st',
    process_line raw st = (LineRaise e, st')
    /\ (e = KeyError "name" \/ e = KeyError "args" \/ e = TypeError)
    /\ iteration_response st' = iteration_response st
    /\ calls st' = calls st
    /\ world st' = world st
    /\ forall rest, process_lines (raw :: rest) st = (LineRaise e, st').
Proof.
  intros Hcall Hsplit Hloads Hinv.
  assert (Hline : exists e st',
             process_line raw st = (LineRaise e, st')
             /\ (e = KeyError "name" \/ e = KeyError "args" \/ e = TypeError)
             /\ iteration_response st' = iteration_response st
             /\ calls st' = calls st /\ world st' = world st).
  { unfold invocation in Hinv. unfold is_call in Hcall.
    unfold process_line. unfold is_call in Hinv.
    rewrite Hcall, Hsplit, Hloads in *.
    destruct (String.eqb (strip raw) "") eqn:He.
    { apply String.eqb_eq in He. rewrite He in Hcall. discriminate. }
    simpl. unfold getitem in *.
    destruct j as [| b | z | lexeme | s | l | kv];
      try (do 2 eexists; split; [reflexivity |]; repeat split; auto).
    destruct (dict_get "name" kv) as [n |].
    - destruct (dict_get "args" kv) as [a |]; [discriminate |].
      do 2 eexists. split; [reflexivity |]. repeat split; auto.
    - do 2 eexists. split; [reflexivity |]. repeat split; auto. }
  destruct Hline as (e & st' & Hline & He & Hr & Hc & Hw).
  exists e, st'. repeat split; try assumption.
  intros rest. simpl. rewrite Hline. reflexivity.
Qed.

End Loop.

Arguments iteration {World} l.
Arguments iteration_response {World} l.
Arguments query {World} l.
Arguments function_info_json {World} l.
Arguments calls {World} l.
Arguments out {World} l.
Arguments world {World} l.
Arguments mkLoop {World}.
Arguments mkEnv {World}.
Arguments MainReturned {World} loop.
Arguments MainSysExit {World} code.
Arguments initial_state {World} env.
Arguments prompt_of {World} system_prompt st.
Arguments dispatch {World}.
Arguments process_line {World}.
Arguments process_lines {World}.
Arguments do_round {World}.
Arguments run_loop {World}.
Arguments main {World}.
Arguments script {World}.

(** *** [format_tools_for_prompt] (lines 73-103) *)

(** A tool as [session.list_tools()] describes it: its name, its description
    (which may be [None]) and its input schema, a dict. *)
Record Tool : Type := mkTool {
  tool_name : string;
  tool_description : option string;
  inputSchema : list (string * json)
}.

(** What [format_tools_for_prompt] prints for a tool. *)
Inductive ToolsEvent : Type :=
| PrintAdded (tool_desc : string)
| PrintToolProblem (i : nat) (e : exn).

Section Prompt.

(** [str(v)] for a float, a list or a dict of a schema. *)
Variable py_repr : json -> string.

(** [str(v)], as an f-string formats a value. *)
Definition py_str (v : json) : string :=
  match v with
  | JStr s => s
  | JNull => "None"
  | JBool true => "True"
  | JBool false => "False"
  | JInt z => str_of_Z z
  | _ => py_repr v
  end.

(** One parameter of the schema: [param_info.get('type', 'unknown')] needs a
    dict. *)
Definition param_detail (entry : string * json) : exn + string :=
  match snd entry with
  | JDict param_info =>
      let param_type := match dict_get "type" param_info with
                        | Some t => t
                        | None => JStr "unknown"
                        end in
      inr (fst entry ++ ": " ++ py_str param_type)
  | _ => inl AttributeError
  end.

Fixpoint param_details (entries : list (string * json)) : exn + list string :=
  match entries with
  | [] => inr []
  | entry :: rest =>
      match param_detail entry with
      | inl e => inl e
      | inr d =>
          match param_details rest with
          | inl e => inl e
          | inr ds => inr (d :: ds)
          end
      end
  end.

(** The body of the [try] for the tool of index [i]. *)
Definition describe (i : nat) (tool : Tool) : exn + string :=
  let params := inputSchema tool in
  let desc := match tool_description tool with Some d => d | None => "None" end in
  let name := tool_name tool in
  let params_str :=
    match dict_get "properties" params with
    | Some (JDict properties) =>
        match param_details properties with
        | inl e => inl e
        | inr details => inr (join ", " details)
        end
    | Some _ => inl AttributeError
    | None => inr "no parameters"
    end in
  match params_str with
  | inl e => inl e
  | inr params_str =>
      inr (str_of_nat (i + 1) ++ ". " ++ name ++ "(" ++ params_str ++ ") - " ++ desc)
  end.

(** The [for] over [enumerate(tools)], from index [i] on: the entries and
    what is printed. *)
Fixpoint describe_from (i : nat) (tools : list Tool)
  : list string * list ToolsEvent :=
  match tools with
  | [] => ([], [])
  | tool :: rest =>
      let '(entries, printed) := describe_from (S i) rest in
      match describe i tool with
      | inr tool_desc => (tool_desc :: entries, PrintAdded tool_desc :: printed)
      | inl e =>
          ((str_of_nat (i + 1) ++ ". Error processing tool") :: entries,
           PrintToolProblem i e :: printed)
      end
  end.

Definition format_tools_for_prompt (tools : list Tool) : string * list ToolsEvent :=
  match tools with
  | [] => ("No tools available.", [])
  | _ :: _ =>
      let '(tools_description, printed) := describe_from 0 tools in
      (join nl tools_description, printed)
  end.

Lemma describe_numbered (i : nat) (tool : Tool) (d : string) :
  describe i tool = inr d -> exists rest, d = str_of_nat (i + 1) ++ ". " ++ rest.
Proof.
  unfold describe.
  destruct (dict_get "properties" (inputSchema tool)) as [[| | | | | | props] |];
    try discriminate;
    try (intros H; injection H as <-; eexists; reflexivity).
  destruct (param_details props); [discriminate |].
  intros H. injection H as <-. eexists. reflexivity.
Qed.

Lemma describe_from_entries (tools : list Tool) :
  forall i,
    List.length (fst (describe_from i tools)) = List.length tools
    /\ forall k entry,
         nth_error (fst (describe_from i tools)) k = Some entry ->
         exists rest, entry = str_of_nat (i + k + 1) ++ ". " ++ rest.
Proof.
  induction tools as [| tool tools IH]; intros i; simpl.
  - split; [reflexivity |]. intros [| k] entry H; discriminate.
  - destruct (IH (S i)) as [Hlen Hnth].
    destruct (describe_from (S i) tools) as [entries printed]. simpl in Hlen, Hnth.
    destruct (describe i tool) as [e | d] eqn:Hd; simpl.
    + split; [f_equal; exact Hlen |]. intros [| k] entry H; simpl in H.
      * injection H as <-. rewrite Nat.add_0_r. eexists. reflexivity.
      * destruct (Hnth k entry H) as [rest Hrest]. exists rest.
        rewrite Hrest. do 2 f_equal. lia.
    + split; [f_equal; exact Hlen |]. intros [| k] entry H; simpl in H.
      * injection H as <-. rewrite Nat.add_0_r.
        apply (describe_numbered i tool d Hd).
      * destruct (Hnth k entry H) as [rest Hrest]. exists rest.
        rewrite Hrest. do 2 f_equal. lia.
Qed.

(** X27. [format_tools_for_prompt] answers "No tools available." for an empty
    list, and otherwise joins, with newlines, exactly one entry per tool, in
    the order of the list, the entry of the tool at index k starting with
    "k+1. ": a tool whose schema cannot be read gets its numbered entry too
    (an error entry) and does not disturb the entries of the others. *)
Theorem format_tools_one_entry_per_tool (tools : list Tool) :
  exists entries,
    fst (format_tools_for_prompt tools)
    = match tools with
      | [] => "No tools available."
      | _ :: _ => join nl entries
      end
    /\ List.length entries = List.length tools
    /\ forall k entry,
         nth_error entries k = Some entry ->
         exists rest, entry = str_of_nat (k + 1) ++ ". " ++ rest.
Proof.
  exists (fst (describe_from 0 tools)).
  destruct (describe_from_entries tools 0) as [Hlen Hnth].
  split; [| split].
  - unfold format_tools_for_prompt. destruct tools as [| tool rest];
      [reflexivity |].
    destruct (describe_from 0 (tool :: rest)). reflexivity.
  - exact Hlen.
  - exact Hnth.
Qed.

End Prompt.

End Agent.

(** * The scenarios of the specification, on concrete inputs *)

Section Scenarios.
Import PyStr Json Agent.

Definition quoted (s : string) : string := dq ++ s ++ dq.

(** [FUNCTION_CALL: {"name": "draw_rectangle", "args": {"x1": 600,
    "y1": 354, "x2": 1000, "y2": 454}}] *)
Definition draw_rectangle_line : string :=
  "FUNCTION_CALL: {" ++ quoted "name" ++ ": " ++ quoted "draw_rectangle" ++ ", "
  ++ quoted "args" ++ ": {" ++ quoted "x1" ++ ": 600, " ++ quoted "y1" ++ ": 354, "
  ++ quoted "x2" ++ ": 1000, " ++ quoted "y2" ++ ": 454}}".

Definition draw_rectangle_args : json :=
  JDict [("x1", JInt 600); ("y1", JInt 354); ("x2", JInt 1000); ("y2", JInt 454)].

(** [FUNCTION_CALL: {"name": "open_paint", "args": {}}] *)
Definition open_paint_line : string :=
  "FUNCTION_CALL: {" ++ quoted "name" ++ ": " ++ quoted "open_paint" ++ ", "
  ++ quoted "args" ++ ": {}}".

(** [FUNCTION_CALL: {"name": "open_canvas", "args": {}}]: the name the
    specification's catalogue gives, which the server does not register. *)
Definition open_canvas_line : string :=
  "FUNCTION_CALL: {" ++ quoted "name" ++ ": " ++ quoted "open_canvas" ++ ", "
  ++ quoted "args" ++ ": {}}".

(** A payload cut short: [FUNCTION_CALL: {"name": "open_paint", "args":]. *)
Definition truncated_line : string :=
  "FUNCTION_CALL: {" ++ quoted "name" ++ ": " ++ quoted "open_paint" ++ ", "
  ++ quoted "args" ++ ":".

Definition final_line : string := "FINAL_ANSWER: done".

(** The response of end-to-end scenario 2. *)
Definition scenario2_response : string := draw_rectangle_line ++ nl ++ final_line.

(** A termination line followed by an invocation line. *)
Definition final_first_response : string := final_line ++ nl ++ open_paint_line.

(** A truncated payload followed by a well-formed invocation. *)
Definition truncated_response : string := truncated_line ++ nl ++ open_paint_line.

(** A tool server whose every tool succeeds; its state counts the calls. *)
Definition counting_tool (name : string) (params : json) (w : nat)
  : (string + string) * nat :=
  (inr (name ++ " done"), S w).

Definition answers (text : string) : nat -> string -> PlannerResult :=
  fun _ _ => Generated (Some text).

Definition times_out : nat -> string -> PlannerResult := fun _ _ => GenTimeout.

(** A run with the API key set, the tool server found and connected. *)
Definition env0 : Env nat :=
  mkEnv (Some "key") true None "AB" "someone@example.com" None 0.

Definition instructions : string := "You are an agent that can control Microsoft Paint and send emails.".

Definition newline : ascii := ascii_of_nat 10.

Lemma singleton_of_length {A : Type} (l : list A) :
  List.length l = 1 -> exists a, l = [a].
Proof.
  destruct l as [| a [| b l]]; simpl; intros H; try discriminate.
  exists a. reflexivity.
Qed.

(** C5. When the planner answers round 1 with the draw_rectangle invocation
    line followed by [FINAL_ANSWER: done], whatever the tool server does with
    the call, exactly one record is appended to the history, for the one
    call of draw_rectangle with the arguments of the line, and the loop then
    ends on the termination line, whose text is "done", with the round
    counter still at 0: round 2 is never reached. *)
Theorem scenario_two (World : Type)
        (client_generate : nat -> string -> PlannerResult)
        (call_tool : string -> json -> World -> (string + string) * World)
        (system_prompt : string) (env : Env World) :
  client_generate 0 (prompt_of system_prompt (initial_state env))
  = Generated (Some scenario2_response) ->
  exists record st',
    run_loop loads client_generate call_tool registered_tools system_prompt
             (initial_state env)
    = (FinalAnswer "FINAL_ANSWER: done", st')
    /\ iteration_response st' = [record]
    /\ calls st' = [("draw_rectangle", draw_rectangle_args)]
    /\ iteration st' = 0.
Proof.
  intros Hgen.
  destruct (round_until_final World loads client_generate call_tool
              registered_tools system_prompt (initial_state env)
              scenario2_response [draw_rectangle_line] [] final_line)
    as (st' & Hround & Hcalls & Hlen & Hit).
  - exact Hgen.
  - vm_compute. reflexivity.
  - constructor; [| constructor]. split.
    + vm_compute. reflexivity.
    + intros _. vm_compute. discriminate.
  - vm_compute. reflexivity.
  - assert (Hlt : iteration (initial_state env) < max_iterations)
      by (unfold max_iterations; simpl; lia).
    pose proof (run_loop_round World loads client_generate call_tool
                  registered_tools system_prompt _ _ _ Hlt Hround) as Hrun.
    simpl in Hlen. apply singleton_of_length in Hlen.
    destruct Hlen as [record Hrecord].
    exists record, st'. repeat split; assumption.
Qed.

(** C2, at a failing input. A response whose first line is an invocation
    with a payload cut short, and whose second line is a well-formed
    invocation of open_paint: the decoder refuses the payload, and the loop
    ends there on [UnboundLocalError], in round 1, without reading the
    second line (no tool is called) and without a next round. *)
Theorem truncated_payload_stops_loop :
  let r := run_loop loads (answers truncated_response) counting_tool
                    registered_tools instructions (initial_state env0) in
  split newline (strip truncated_response) = [truncated_line; open_paint_line]
  /\ option_map (fun p => loads (snd p)) (split_once ":" truncated_line) = Some None
  /\ executed loads registered_tools open_paint_line = [("open_paint", JDict [])]
  /\ fst r = StoppedOnError (UnboundLocalError "function_info_json")
  /\ iteration (snd r) = 0
  /\ calls (snd r) = [].
Proof. vm_compute. repeat split. Qed.


(** C1 fails as stated: a response with a termination line first and an
    invocation of open_paint after it ends the loop without the call. *)
Lemma termination_line_first :
  let r := do_round loads (answers final_first_response) counting_tool
                    registered_tools instructions (initial_state env0) in
  split newline (strip final_first_response) = [final_line; open_paint_line]
  /\ executed loads registered_tools open_paint_line = [("open_paint", JDict [])]
  /\ fst r = RoundFinal "FINAL_ANSWER: done"
  /\ calls (snd r) = []
  /\ world (snd r) = 0.
Proof. vm_compute. repeat split. Qed.

(** C6 fails as stated: an invocation of the unregistered open_canvas
    completes the round and leaves the history empty. *)
Lemma unregistered_invocation_no_record :
  let r := do_round loads (answers open_canvas_line) counting_tool
                    registered_tools instructions (initial_state env0) in
  invocation loads open_canvas_line = Some (JStr "open_canvas", JDict [])
  /\ name_in registered_tools (JStr "open_canvas") = None
  /\ fst r = RoundDone
  /\ iteration_response (snd r) = [].
Proof. vm_compute. repeat split. Qed.

(** C8 fails as stated: with a planner that times out in round 1 the loop
    ends on the [TimeoutError] and the exit code of the process is 0. *)
Lemma planner_timeout_exit_code_zero :
  fst (run_loop loads times_out counting_tool registered_tools instructions
                (initial_state env0))
  = StoppedOnError TimeoutError
  /\ script loads times_out counting_tool registered_tools instructions env0 = 0%Z.
Proof. vm_compute. split; reflexivity. Qed.

(** *** The theorems with hypotheses, at concrete inputs *)

Lemma invocations_before_termination_witness :
  exists st',
    do_round loads (answers scenario2_response) counting_tool registered_tools
             instructions (initial_state env0)
    = (RoundFinal (strip final_line), st')
    /\ calls st'
       = (calls (initial_state env0)
          ++ flat_map (executed loads registered_tools) [draw_rectangle_line])%list
    /\ List.length (iteration_response st')
       = List.length (iteration_response (initial_state env0))
         + List.length (flat_map (executed loads registered_tools)
                                 [draw_rectangle_line])
    /\ iteration st' = iteration (initial_state env0).
Proof.
  apply (invocations_before_termination nat loads (answers scenario2_response)
           counting_tool registered_tools instructions (initial_state env0)
           scenario2_response [draw_rectangle_line] [] final_line).
  - reflexivity.
  - vm_compute. reflexivity.
  - constructor; [| constructor]. split.
    + vm_compute. reflexivity.
    + intros _. vm_compute. discriminate.
  - vm_compute. reflexivity.
Defined.

Lemma round_index_invariant_witness :
  iteration (snd (run_loop loads (answers open_paint_line) counting_tool
                           registered_tools instructions (initial_state env0)))
  <= max_iterations.
Proof.
  pose proof (round_index_invariant nat loads (answers open_paint_line)
                counting_tool registered_tools instructions
                (initial_state env0) (Nat.le_0_l max_iterations)) as H.
  destruct H as (_ & _ & H).
  destruct (H _ _ (surjective_pairing _)) as (_ & Hb & _).
  apply Hb.
Defined.

Lemma scenario_two_witness :
  exists record st',
    run_loop loads (answers scenario2_response) counting_tool registered_tools
             instructions (initial_state env0)
    = (FinalAnswer "FINAL_ANSWER: done", st')
    /\ iteration_response st' = [record]
    /\ calls st' = [("draw_rectangle", draw_rectangle_args)]
    /\ iteration st' = 0.
Proof.
  apply (scenario_two nat (answers scenario2_response) counting_tool
           instructions env0).
  reflexivity.
Defined.

Lemma unregistered_invocation_skipped_witness :
  exists st',
    process_line loads counting_tool registered_tools open_canvas_line
                 (initial_state env0)
    = (LineNext, st')
    /\ iteration_response st' = iteration_response (initial_state env0)
    /\ calls st' = calls (initial_state env0)
    /\ world st' = world (initial_state env0)
    /\ forall rest,
         process_lines loads counting_tool registered_tools
                       (open_canvas_line :: rest) (initial_state env0)
         = process_lines loads counting_tool registered_tools rest st'.
Proof.
  apply (unregistered_invocation_skipped nat loads counting_tool registered_tools
           open_canvas_line (initial_state env0) (JStr "open_canvas") (JDict [])).
  - vm_compute. reflexivity.
  - vm_compute. reflexivity.
Defined.

Lemma planner_timeout_round_one_witness :
  exists st',
    run_loop loads times_out counting_tool registered_tools instructions
             (initial_state env0)
    = (StoppedOnError TimeoutError, st')
    /\ iteration st' = 0
    /\ iteration_response st' = []
    /\ calls st' = []
    /\ main loads times_out counting_tool registered_tools instructions env0
       = MainReturned (Some (StoppedOnError TimeoutError, st'))
    /\ script loads times_out counting_tool registered_tools instructions env0
       = 0%Z.
Proof.
  apply (planner_timeout_round_one nat loads times_out counting_tool
           registered_tools instructions env0 "key").
  - reflexivity.
  - discriminate.
  - reflexivity.
  - reflexivity.
  - reflexivity.
Defined.

Lemma paint_not_open_guard_witness :
  fst (PaintTools.draw_rectangle (fun _ _ => None) (fun _ => (0, 0)%Z)
         600 354 1000 454 (PaintTools.init true))
  = inr PaintTools.not_open.
Proof.
  exact (f_equal fst
           (proj1 (PaintTools.paint_not_open_guard
                     (fun _ _ => None) (fun _ => (0, 0)%Z)
                     "C:\Assignment" (fun a b => a ++ "\" ++ b)
                     (PaintTools.init true) 600 354 1000 454
                     "6.311e+28" "ascii_result_AB.png" eq_refl eq_refl))).
Defined.

(** A tool server whose every call raises. *)
Definition failing_tool (name : string) (params : json) (w : nat)
  : (string + string) * nat :=
  (inl "Connection closed", w).

Lemma narrative_response_round_witness :
  exists st',
    do_round loads (answers "REASONING: planning") counting_tool registered_tools
             instructions (initial_state env0)
    = (RoundDone, st')
    /\ iteration st' = iteration (initial_state env0) + 1
    /\ iteration_response st' = iteration_response (initial_state env0)
    /\ calls st' = calls (initial_state env0)
    /\ world st' = world (initial_state env0).
Proof.
  apply (narrative_response_round nat loads (answers "REASONING: planning")
           counting_tool registered_tools instructions (initial_state env0)
           "REASONING: planning").
  - reflexivity.
  - vm_compute. constructor; [split; reflexivity | constructor].
Defined.

Lemma tool_failure_recorded_witness :
  exists st',
    dispatch failing_tool registered_tools (JStr "open_paint") (JDict [])
             (initial_state env0)
    = (LineNext, st')
    /\ iteration_response st'
       = (iteration_response (initial_state env0)
          ++ ["In iteration 1, open_paint failed: Connection closed"])%list
    /\ calls st' = (calls (initial_state env0) ++ [("open_paint", JDict [])])%list
    /\ world st' = 0.
Proof.
  apply (tool_failure_recorded nat failing_tool registered_tools
           (JStr "open_paint") (JDict []) "open_paint" "Connection closed" 0
           (initial_state env0)).
  - reflexivity.
  - reflexivity.
Defined.

Lemma calculate_ascii_exp_sum_report_witness :
  fst (PaintTools.calculate_ascii_exp_sum
         (fun n => Some (2 ^ n)) Nat.add 0 (fun _ v => str_of_nat v) "AB"
         (PaintTools.init true))
  = inr (PaintTools.report Nat.add 0 (fun _ v => str_of_nat v) "AB" (fun n => 2 ^ n)).
Proof.
  apply (PaintTools.calculate_ascii_exp_sum_report
           nat (fun n => Some (2 ^ n)) Nat.add 0 (fun _ v => str_of_nat v)
           "AB" (fun n => 2 ^ n) (PaintTools.init true)).
  - discriminate.
  - intros c _. reflexivity.
Defined.

(** *** The tool server on a concrete desktop and concrete files *)

(** A desktop on which nothing raises, and one on which only typing through
    pywinauto raises. *)
Definition quiet_desktop (done : list PaintTools.GuiAction)
           (a : PaintTools.GuiAction) : option string := None.

Definition no_type_keys (done : list PaintTools.GuiAction)
           (a : PaintTools.GuiAction) : option string :=
  match a with
  | PaintTools.TypeKeys _ => Some "timed out"
  | _ => None
  end.

Definition canvas_at (origin : Z * Z) (done : list PaintTools.GuiAction) : Z * Z :=
  origin.

(** The server in real mode after [open_paint] on the quiet desktop. *)
Definition paint_opened : PaintTools.State :=
  snd (PaintTools.open_paint quiet_desktop (PaintTools.init true)).

(** The directory of the script with one file in it, the image saved. *)
Definition script_dir : string := "C:\Assignment".

Definition join_path (a b : string) : string := a ++ "\" ++ b.

Definition image_name : string := "ascii_result_AB.png".

Definition one_file (path : string) : bool :=
  String.eqb path (join_path script_dir image_name).

Definition drive_path (path : string) : bool := String.prefix "C:\" path.

Definition size_of (path : string) : string + nat := inr 4096.

Definition data_of (path : string) : string + string := inr "PNG".

Definition last_component (path : string) : string :=
  List.last (split "\"%char path) "".

Definition guess_png (path : string) : option string * option string :=
  (Some "image/png", None).

Definition as_text (data : string) : string + string := inr data.

Definition quiet_server (done : list GmailTools.SmtpAction)
           (a : GmailTools.SmtpAction) : option string := None.

(** The mail tools with both credentials set. *)
Definition mail_ready : GmailTools.State :=
  GmailTools.init (Some "agent@gmail.com") (Some "app password").

(** [FUNCTION_CALL: {"name": "open_paint"}]: an object without "args". *)
Definition no_args_line : string :=
  "FUNCTION_CALL: {" ++ quoted "name" ++ ": " ++ quoted "open_paint" ++ "}".

(** What [check_file_exists] reports about the file at [full_path]. *)
Definition check_report (path_exists : string -> bool)
           (getsize : string -> string + nat) (full_path : string) : string :=
  if path_exists full_path then
    match getsize full_path with
    | inr size => "File exists: " ++ full_path ++ nl ++ "Size: "
                  ++ str_of_nat size ++ " bytes"
    | inl e => "Error checking file: " ++ e
    end
  else "File does not exist: " ++ full_path.

(** X28. Saving and checking agree on the file: on a desktop that raises
    nothing, [save_paint], in real mode with the application open, types the
    name joined to the directory of the script into the save dialog and
    reports success (without looking at the file system), and
    [check_file_exists] of the same relative name reports on that very
    path. *)
Theorem saved_file_is_checked_file
        (gui_raises : list PaintTools.GuiAction -> PaintTools.GuiAction -> option string)
        (path_exists isabs : string -> bool) (getsize : string -> string + nat)
        (os_path_join : string -> string -> string) (assignment_path : string)
        (paint : PaintTools.State) (mail : GmailTools.State)
        (app : PaintTools.App) (filename : string) :
  PaintTools.simulation_mode paint = false ->
  PaintTools.paint_app paint = Some app ->
  (forall g a, gui_raises g a = None) ->
  isabs filename = false ->
  let full_path := os_path_join assignment_path filename in
  let saved := PaintTools.save_paint gui_raises assignment_path os_path_join
                                     filename paint in
  fst saved = inr ("File saved to Assignment directory as: " ++ filename)
  /\ In (PaintTools.SendKeys full_path) (PaintTools.gui (snd saved))
  /\ fst (GmailTools.check_file_exists path_exists isabs getsize os_path_join
                                       assignment_path filename mail)
     = inr (check_report path_exists getsize full_path).
Proof.
  intros Hsim Happ Hok Habs. cbv zeta.
  destruct paint as [app0 sim rect g l]. simpl in Hsim, Happ. subst sim app0.
  split; [| split].
  - unfold PaintTools.save_paint, PaintTools.try_except, PaintTools.bind,
      PaintTools.get, PaintTools.act, PaintTools.logger, PaintTools.sleep,
      PaintTools.ret.
    cbn [PaintTools.simulation_mode PaintTools.gui PaintTools.paint_app
         PaintTools.last_rect PaintTools.log fst snd].
    repeat (rewrite Hok;
            cbn [PaintTools.simulation_mode PaintTools.gui PaintTools.paint_app
                 PaintTools.last_rect PaintTools.log fst snd]).
    reflexivity.
  - unfold PaintTools.save_paint, PaintTools.try_except, PaintTools.bind,
      PaintTools.get, PaintTools.act, PaintTools.logger, PaintTools.sleep,
      PaintTools.ret.
    cbn [PaintTools.simulation_mode PaintTools.gui PaintTools.paint_app
         PaintTools.last_rect PaintTools.log fst snd].
    repeat (rewrite Hok;
            cbn [PaintTools.simulation_mode PaintTools.gui PaintTools.paint_app
                 PaintTools.last_rect PaintTools.log fst snd]).
    repeat rewrite <- app_assoc. apply in_or_app. right. cbn [List.app In].
    do 6 right. left. reflexivity.
  - unfold GmailTools.check_file_exists, check_report, GmailTools.try_except,
      GmailTools.bind, GmailTools.logger, GmailTools.ret, GmailTools.raise.
    rewrite Habs. cbn [negb].
    destruct (path_exists (os_path_join assignment_path filename));
      [| reflexivity].
    destruct (getsize (os_path_join assignment_path filename)); reflexivity.
Qed.

(** *** The further theorems with hypotheses, at concrete inputs *)

Lemma simulation_mode_leaves_desktop_witness :
  fst (PaintTools.save_paint quiet_desktop script_dir join_path image_name
                             (PaintTools.init false))
  = inr ("SIMULATION: File saved as " ++ image_name).
Proof.
  exact (proj1 (proj2 (proj2 (proj2
           (PaintTools.simulation_mode_leaves_desktop
              quiet_desktop (canvas_at (5, 144)%Z) script_dir join_path
              (PaintTools.init false) 600 354 1000 454 "6.311e+28" image_name
              eq_refl))))).
Defined.

Lemma open_paint_sets_handle_witness :
  PaintTools.paint_app (snd (PaintTools.open_paint quiet_desktop
                                                   (PaintTools.init true)))
  = Some PaintTools.MSPaint.
Proof.
  exact (proj1 (proj2 (PaintTools.open_paint_sets_handle
                         quiet_desktop (PaintTools.init true) eq_refl))
               eq_refl).
Defined.

Lemma draw_rectangle_stores_on_success_witness :
  (fst (PaintTools.draw_rectangle quiet_desktop (canvas_at (5, 144)%Z)
                                  600 354 1000 454 paint_opened)
   = inr ("Rectangle drawn from " ++ PaintTools.pair_str 600 354 ++ " to "
          ++ PaintTools.pair_str 1000 454)
   /\ PaintTools.last_rect
        (snd (PaintTools.draw_rectangle quiet_desktop (canvas_at (5, 144)%Z)
                                        600 354 1000 454 paint_opened))
      = Some (PaintTools.mkRect 600 354 1000 454))
  \/ (exists e,
        fst (PaintTools.draw_rectangle quiet_desktop (canvas_at (5, 144)%Z)
                                       600 354 1000 454 paint_opened)
        = inr ("Error drawing rectangle: " ++ e)
        /\ PaintTools.last_rect
             (snd (PaintTools.draw_rectangle quiet_desktop (canvas_at (5, 144)%Z)
                                             600 354 1000 454 paint_opened))
           = PaintTools.last_rect paint_opened).
Proof.
  apply (PaintTools.draw_rectangle_stores_on_success
           quiet_desktop (canvas_at (5, 144)%Z) paint_opened PaintTools.MSPaint
           600 354 1000 454).
  - vm_compute. reflexivity.
  - vm_compute. reflexivity.
Defined.

Lemma add_text_in_paint_anchor_witness :
  fst (PaintTools.add_text_in_paint quiet_desktop (canvas_at (5, 144)%Z)
                                    "6.311e+28" paint_opened)
  = inr "Text '6.311e+28' added to Paint".
Proof.
  exact (proj1 (PaintTools.add_text_in_paint_anchor
                  quiet_desktop (canvas_at (5, 144)%Z) paint_opened
                  PaintTools.MSPaint "6.311e+28" (5, 144)%Z eq_refl eq_refl
                  (fun _ _ => eq_refl) (fun _ => eq_refl))).
Defined.

Lemma text_box_inside_drawn_rectangle_witness :
  (5 + 600 <= 5 + (600 + 1000) / 2 - 50 - 50
   /\ 5 + (600 + 1000) / 2 - 50 + 50 <= 5 + 1000)%Z
  /\ (144 + 354 <= 144 + (354 + 454) / 2 - 25
      /\ 144 + (354 + 454) / 2 + 25 <= 144 + 454)%Z.
Proof.
  pose proof (PaintTools.text_box_inside_drawn_rectangle
                quiet_desktop (canvas_at (5, 144)%Z) paint_opened
                PaintTools.MSPaint 600 354 1000 454 "6.311e+28" (5, 144)%Z
                eq_refl eq_refl (fun _ _ => eq_refl) (fun _ => eq_refl)) as H.
  cbv zeta in H.
  assert (Hw : (600 + 200 <= 1000)%Z) by (intros Hgt; discriminate Hgt).
  assert (Hh : (354 + 50 <= 454)%Z) by (intros Hgt; discriminate Hgt).
  exact (proj2 (H Hw Hh)).
Defined.

Lemma add_text_in_paint_fallback_witness :
  fst (PaintTools.add_text_in_paint no_type_keys (canvas_at (5, 144)%Z)
                                    "6.311e+28" paint_opened)
  = inr "Text '6.311e+28' added to Paint".
Proof.
  exact (proj1 (PaintTools.add_text_in_paint_fallback
                  no_type_keys (canvas_at (5, 144)%Z) paint_opened
                  PaintTools.MSPaint "6.311e+28" "timed out" (5, 144)%Z
                  eq_refl eq_refl (fun _ _ => eq_refl) (fun _ => eq_refl))).
Defined.

Lemma no_credentials_no_mail_witness :
  GmailTools.smtp
    (snd (GmailTools.send_email one_file data_of last_component guess_png as_text
            quiet_server "someone@example.com" "Result" "See the image."
            (Some image_name) (GmailTools.init (Some "agent@gmail.com") None)))
  = [].
Proof.
  exact (proj2 (GmailTools.no_credentials_no_mail
                  one_file data_of last_component guess_png as_text quiet_server
                  (Some "agent@gmail.com") None "someone@example.com" "Result"
                  "See the image." (Some image_name) eq_refl)).
Defined.

Lemma unusable_attachment_sends_nothing_witness :
  fst (GmailTools.send_email one_file data_of last_component guess_png as_text
         quiet_server "someone@example.com" "Result" "See the image."
         (Some image_name) mail_ready)
  = inr ("Attachment file not found: " ++ image_name).
Proof.
  exact (proj1 (proj1 (GmailTools.unusable_attachment_sends_nothing
                         one_file data_of last_component guess_png as_text
                         quiet_server mail_ready "someone@example.com" "Result"
                         "See the image." image_name (Some image_name)
                         eq_refl eq_refl)
                      eq_refl)).
Defined.

Lemma attachment_part_sent_witness :
  fst (GmailTools.send_email one_file data_of last_component guess_png as_text
         quiet_server "someone@example.com" "Result" "See the image."
         (Some (join_path script_dir image_name)) mail_ready)
  = inr "Email sent to someone@example.com with subject: Result and attachment: ascii_result_AB.png".
Proof.
  refine (proj1 (GmailTools.attachment_part_sent
                   one_file data_of last_component guess_png as_text
                   quiet_server mail_ready "someone@example.com" "Result"
                   "See the image." (join_path script_dir image_name)
                   (Some (join_path script_dir image_name)) "image" "png" "PNG"
                   eq_refl (fun _ _ => eq_refl) eq_refl eq_refl eq_refl _ eq_refl)).
  discriminate.
Defined.

Lemma checked_file_not_found_by_send_email_witness :
  fst (GmailTools.check_file_exists one_file drive_path size_of join_path
                                    script_dir image_name mail_ready)
  = inr ("File exists: " ++ join_path script_dir image_name ++ nl ++ "Size: "
         ++ str_of_nat 4096 ++ " bytes")
  /\ fst (GmailTools.send_email one_file data_of last_component guess_png as_text
            quiet_server "someone@example.com" "Result" "See the image."
            (Some image_name) mail_ready)
     = inr ("Attachment file not found: " ++ image_name)
  /\ GmailTools.smtp
       (snd (GmailTools.send_email one_file data_of last_component guess_png
               as_text quiet_server "someone@example.com" "Result"
               "See the image." (Some image_name) mail_ready))
     = GmailTools.smtp mail_ready.
Proof.
  apply (GmailTools.checked_file_not_found_by_send_email
           one_file drive_path size_of data_of last_component join_path
           script_dir guess_png as_text quiet_server mail_ready
           "someone@example.com" "Result" "See the image." image_name 4096).
  - reflexivity.
  - discriminate.
  - reflexivity.
  - reflexivity.
  - reflexivity.
  - reflexivity.
Defined.

Lemma planner_failure_stops_loop_witness :
  exists e st',
    run_loop loads times_out counting_tool registered_tools instructions
             (initial_state env0)
    = (StoppedOnError e, st')
    /\ iteration_response st' = iteration_response (initial_state env0)
    /\ calls st' = calls (initial_state env0)
    /\ world st' = world (initial_state env0)
    /\ iteration st' = iteration (initial_state env0).
Proof.
  apply (planner_failure_stops_loop nat loads times_out counting_tool
           registered_tools instructions (initial_state env0)).
  - unfold max_iterations. simpl. repeat constructor.
  - intros text. discriminate.
Defined.

Lemma incomplete_invocation_raises_witness :
  exists e st',
    process_line loads counting_tool registered_tools no_args_line
                 (initial_state env0)
    = (LineRaise e, st')
    /\ (e = KeyError "name" \/ e = KeyError "args" \/ e = TypeError)
    /\ iteration_response st' = iteration_response (initial_state env0)
    /\ calls st' = calls (initial_state env0)
    /\ world st' = world (initial_state env0)
    /\ forall rest,
         process_lines loads counting_tool registered_tools
                       (no_args_line :: rest) (initial_state env0)
         = (LineRaise e, st').
Proof.
  apply (incomplete_invocation_raises nat loads counting_tool registered_tools
           no_args_line "FUNCTION_CALL"
           (" {" ++ quoted "name" ++ ": " ++ quoted "open_paint" ++ "}")
           (JDict [("name", JStr "open_paint")]) (initial_state env0)).
  - vm_compute. reflexivity.
  - vm_compute. reflexivity.
  - vm_compute. reflexivity.
  - vm_compute. reflexivity.
Defined.

Lemma saved_file_is_checked_file_witness :
  fst (GmailTools.check_file_exists one_file drive_path size_of join_path
                                    script_dir image_name mail_ready)
  = inr (check_report one_file size_of (join_path script_dir image_name)).
Proof.
  exact (proj2 (proj2 (saved_file_is_checked_file
                         quiet_desktop one_file drive_path size_of join_path
                         script_dir paint_opened mail_ready PaintTools.MSPaint
                         image_name eq_refl eq_refl (fun _ _ => eq_refl)
                         eq_refl))).
Defined.

End Scenarios.
